(** * TalentGrid: retrieval and ranking engine

    Shallow embedding of the Python sources under [backend/app/ai]:
    [retrieval/hybrid_search.py], [retrieval/query_parser.py],
    [retrieval/retriever.py], [ranking/cross_encoder.py],
    [ingestion/chunker.py], [ingestion/pipeline.py] and the ordering step of
    [service.py].

    Modelling conventions.
    - A Python [str] is a [string]; a character is read as the code point
      U+0000..U+00FF it denotes, and [lower], [split], [strip] and the regular
      expression class [\w] follow CPython on that range.
    - A Python [float] score is an exact real number ([R]); [math.log] is the
      real logarithm [ln].  This leaves the rounding of binary64 arithmetic
      out; the module [Binary64] holds the aggregation formula of the
      retriever on binary64 numbers, where the rounding shows.
    - A Python [dict] is the list of its items in insertion order.
    - The embedding model, the vector index and the re-ranking service are
      external: they are parameters of the functions that call them. *)

From Stdlib Require Import PrimFloat.
From Stdlib Require Import String Ascii List Bool Arith ZArith Lia.
From Stdlib Require Import Reals Lra.
From Stdlib Require Import Permutation Sorted.
From Stdlib Require Import DecimalString.
From Stdlib Require DecimalNat DecimalFacts.
Import ListNotations.

Set Implicit Arguments.
Set Warnings "-inexact-float".

Local Open Scope string_scope.

(* ================================================================== *)
(** ** Python string primitives *)

Module PyStr.

Local Open Scope nat_scope.

Definition code (c : ascii) : nat := nat_of_ascii c.

Definition between (lo hi n : nat) : bool := (lo <=? n) && (n <=? hi).

(** [str.isspace] on one character. *)
Definition isspace (c : ascii) : bool :=
  let n := code c in
  between 9 13 n || between 28 32 n || (n =? 133) || (n =? 160).

(** [str.lower] on one character. *)
Definition lower_char (c : ascii) : ascii :=
  let n := code c in
  if between 65 90 n || between 192 214 n || between 216 222 n
  then ascii_of_nat (n + 32) else c.

(** [s.lower()] *)
Fixpoint lower (s : string) : string :=
  match s with
  | EmptyString => EmptyString
  | String c s' => String (lower_char c) (lower s')
  end.

(** The class [\w] of the [re] module on [str] patterns. *)
Definition is_word_char (c : ascii) : bool :=
  let n := code c in
  between 48 57 n || between 65 90 n || (n =? 95) || between 97 122 n
  || (n =? 170) || between 178 179 n || (n =? 181) || between 185 186 n
  || between 188 190 n || between 192 214 n || between 216 246 n
  || between 248 255 n.

(** Maximal runs of characters satisfying [keep], left to right.  [cur] is
    the run being read, in reverse. *)
Definition flush (cur : list ascii) (acc : list string) : list string :=
  match cur with
  | [] => acc
  | _ => string_of_list_ascii (rev cur) :: acc
  end.

Fixpoint runs_aux (keep : ascii -> bool) (s : string) (cur : list ascii)
  : list string :=
  match s with
  | EmptyString => flush cur []
  | String c s' =>
      if keep c then runs_aux keep s' (c :: cur)
      else flush cur (runs_aux keep s' [])
  end.

Definition runs (keep : ascii -> bool) (s : string) : list string :=
  runs_aux keep s [].

(** [s.split()]: the maximal runs of non-whitespace characters. *)
Definition split (s : string) : list string :=
  runs (fun c => negb (isspace c)) s.

(** [re.findall(r"\w+", s)] *)
Definition findall_word (s : string) : list string :=
  runs is_word_char s.

Fixpoint lstrip (s : string) : string :=
  match s with
  | EmptyString => EmptyString
  | String c s' => if isspace c then lstrip s' else s
  end.

Definition rev_string (s : string) : string :=
  string_of_list_ascii (rev (list_ascii_of_string s)).

Definition rstrip (s : string) : string :=
  rev_string (lstrip (rev_string s)).

(** [s.strip()] *)
Definition strip (s : string) : string := rstrip (lstrip s).

(** [sub in s] *)
Fixpoint contains (sub s : string) : bool :=
  prefix sub s
  || match s with
     | EmptyString => false
     | String _ s' => contains sub s'
     end.

(** [s.count(sub)]: occurrences of [sub] counted left to right without
    overlap; [skip] characters are still covered by the last match. *)
Fixpoint count_aux (sub s : string) (skip : nat) : nat :=
  match s with
  | EmptyString => if (skip =? 0) && prefix sub s then 1 else 0
  | String _ s' =>
      match skip with
      | S k => count_aux sub s' k
      | O =>
          if prefix sub s
          then S (count_aux sub s' (Nat.pred (String.length sub)))
          else count_aux sub s' 0
      end
  end.

Definition count (s sub : string) : nat := count_aux sub s 0.

(** [s[:n]] for [n >= 0] *)
Definition slice_to (n : nat) (s : string) : string := substring 0 n s.

(** [s.split(sep)[0]] for a one-character separator. *)
Fixpoint before_first (sep : ascii) (s : string) : string :=
  match s with
  | EmptyString => EmptyString
  | String c s' =>
      if Ascii.eqb c sep then EmptyString else String c (before_first sep s')
  end.

(** [sep.join(l)] *)
Definition join (sep : string) (l : list string) : string := String.concat sep l.

(** [str(i)] for a non-negative integer, as f-strings render an index. *)
Definition of_nat (n : nat) : string :=
  NilZero.string_of_uint (Nat.to_uint n).

(** [w in S] for a collection of strings. *)
Definition mem (w : string) (S : list string) : bool :=
  existsb (String.eqb w) S.

End PyStr.

(* ================================================================== *)
(** ** Insertion-ordered dictionaries *)

Module Dict.

(** The items of a [dict], in insertion order; keys are pairwise distinct. *)
Definition t (V : Type) : Type := list (string * V).

Definition keys {V} (d : t V) : list string := map fst d.

(** [d.get(k)] *)
Fixpoint get {V} (d : t V) (k : string) : option V :=
  match d with
  | [] => None
  | (k', v) :: d' => if String.eqb k k' then Some v else get d' k
  end.

(** [d.get(k, dflt)] *)
Definition get_default {V} (d : t V) (k : string) (dflt : V) : V :=
  match get d k with
  | Some v => v
  | None => dflt
  end.

(** [k in d] *)
Definition contains {V} (d : t V) (k : string) : bool :=
  match get d k with
  | Some _ => true
  | None => false
  end.

(** [d[k] = v]: an existing key keeps its position, a new key goes last. *)
Fixpoint set {V} (d : t V) (k : string) (v : V) : t V :=
  match d with
  | [] => [(k, v)]
  | (k', v') :: d' =>
      if String.eqb k k' then (k, v) :: d' else (k', v') :: set d' k v
  end.

End Dict.

(* ================================================================== *)
(** ** [sorted(l, key=..., reverse=True)] *)

Section SortedDesc.

Local Open Scope R_scope.

Variable A : Type.
Variable key : A -> R.

(** [x] stood before every element of [l] in the input: it goes in front of
    the first element whose key does not exceed its own. *)
Fixpoint insert_desc (x : A) (l : list A) : list A :=
  match l with
  | [] => [x]
  | y :: l' =>
      if Rle_dec (key y) (key x) then x :: l else y :: insert_desc x l'
  end.

(** Python's sort is stable, also under [reverse=True]; the result of a
    stable sort is determined by the keys, and is computed here by
    insertion from the right. *)
Definition sorted_desc (l : list A) : list A :=
  fold_right insert_desc [] l.

(** Descending by key. *)
Definition descending (l : list A) : Prop :=
  StronglySorted (fun a b => key b <= key a) l.

(** The elements of [l] whose key is [k], in their order in [l]. *)
Definition with_key (k : R) (l : list A) : list A :=
  filter (fun x => if Req_dec_T (key x) k then true else false) l.

End SortedDesc.

(* ================================================================== *)
(** ** retrieval/query_parser.py *)

Module QueryParser.

(** The filters sent by the UI (routes/search.py, [SearchFilters]). *)
Record ui_filters : Type := {
  min_experience : option Z;
  max_experience : option Z;
  languages : option (list string);
  location : option string
}.

Definition no_filters : ui_filters :=
  {| min_experience := None; max_experience := None;
     languages := None; location := None |}.

(** The where-clauses built for the vector index: one condition on the
    [experience_years] metadata field, or the [$and] of several. *)
Inductive condition : Type :=
| experience_gte (n : Z)
| experience_lte (n : Z).

Inductive where_clause : Type :=
| where_one (c : condition)
| where_and (conditions : list condition).

Definition opt_to_list {X} (o : option X) : list X :=
  match o with
  | Some x => [x]
  | None => []
  end.

(** [QueryParser._build_filters].  An empty filter dictionary is falsy and
    yields [None] at once, as an empty list of conditions does. *)
Definition _build_filters (f : ui_filters) : option where_clause :=
  let conditions :=
    (opt_to_list (option_map experience_gte (min_experience f))
     ++ opt_to_list (option_map experience_lte (max_experience f)))%list in
  match conditions with
  | [] => None
  | [c] => Some (where_one c)
  | _ => Some (where_and conditions)
  end.

(** [QueryParser.parse] *)
Definition parse (query : string) (f : ui_filters)
  : string * option where_clause :=
  (PyStr.strip query, _build_filters f).

End QueryParser.

(* ================================================================== *)
(** ** retrieval/hybrid_search.py *)

Module HybridSearch.

Import PyStr.
Local Open Scope R_scope.

Definition STOP_WORDS : list string :=
[
  "a"; "an"; "the"; "and"; "or"; "but"; "in"; "on"; "at"; "to"; "for";
  "of"; "with"; "by"; "from"; "as"; "is"; "was"; "are"; "were"; "been";
  "be"; "have"; "has"; "had"; "do"; "does"; "did"; "will"; "would";
  "could"; "should"; "may"; "might"; "must"; "shall"; "can"; "need";
  "that"; "this"; "these"; "those"; "i"; "you"; "he"; "she"; "it"; "we";
  "they"; "what"; "which"; "who"; "whom"; "where"; "when"; "why"; "how";
  "all"; "each"; "every"; "both"; "few"; "more"; "most"; "other"; "some";
  "such"; "no"; "nor"; "not"; "only"; "own"; "same"; "so"; "than"; "too";
  "very"; "just"; "also"; "now"; "skills"; "experience"; "years"; "work";
  "working"; "job"; "position"; "role"; "level"; "looking"; "seeking";
  "required"; "requirements"; "preferred"
].

Definition TECH_SKILLS : list string :=
[
  "flutter"; "dart"; "react"; "angular"; "vue"; "javascript"; "typescript";
  "python"; "java"; "kotlin"; "swift"; "go"; "rust"; "ruby"; "php"; "node";
  "nodejs"; "express"; "django"; "flask"; "spring"; "rails"; "sql";
  "mysql"; "postgresql"; "mongodb"; "redis"; "elasticsearch"; "aws";
  "azure"; "gcp"; "docker"; "kubernetes"; "terraform"; "react native";
  "ios"; "android"; "mobile"; "frontend"; "backend"; "fullstack"; "devops";
  "mlops"; "machine learning"; "ml"; "ai"; "tensorflow"; "pytorch";
  "pandas"; "numpy"; "scikit"; "html"; "css"; "sass"; "tailwind";
  "bootstrap"; "git"; "agile"; "scrum"; "jira"; "figma"; "sketch"
].

Definition SYNONYMS : Dict.t (list string) :=
[
  ("react", ["reactjs"; "react.js"]);
  ("reactjs", ["react"; "react.js"]);
  ("vue", ["vuejs"; "vue.js"]);
  ("vuejs", ["vue"; "vue.js"]);
  ("angular", ["angularjs"; "angular.js"]);
  ("node", ["nodejs"; "node.js"]);
  ("nodejs", ["node"; "node.js"]);
  ("javascript", ["js"; "ecmascript"]);
  ("js", ["javascript"; "ecmascript"]);
  ("typescript", ["ts"]);
  ("ts", ["typescript"]);
  ("python", ["py"]);
  ("py", ["python"]);
  ("golang", ["go"]);
  ("go", ["golang"]);
  ("kubernetes", ["k8s"]);
  ("k8s", ["kubernetes"]);
  ("postgresql", ["postgres"; "psql"]);
  ("postgres", ["postgresql"; "psql"]);
  ("mongodb", ["mongo"]);
  ("mongo", ["mongodb"]);
  ("elasticsearch", ["elastic"; "es"]);
  ("machine learning", ["ml"; "machinelearning"]);
  ("ml", ["machine learning"; "machinelearning"]);
  ("artificial intelligence", ["ai"]);
  ("ai", ["artificial intelligence"]);
  ("frontend", ["front-end"; "front end"]);
  ("backend", ["back-end"; "back end"]);
  ("fullstack", ["full-stack"; "full stack"]);
  ("devops", ["dev-ops"; "dev ops"]);
  ("react native", ["reactnative"; "rn"]);
  ("nextjs", ["next.js"; "next"]);
  ("nuxtjs", ["nuxt.js"; "nuxt"])
].

Definition TITLE_PATTERNS : Dict.t (list string) :=
[
  ("developer", ["engineer"; "dev"; "programmer"; "coder"]);
  ("engineer", ["developer"; "dev"]);
  ("senior", ["sr"; "sr."; "lead"; "principal"]);
  ("junior", ["jr"; "jr."; "entry"]);
  ("frontend", ["front-end"; "front end"; "ui"]);
  ("backend", ["back-end"; "back end"; "server"]);
  ("fullstack", ["full-stack"; "full stack"]);
  ("data scientist", ["data science"; "ml engineer"]);
  ("devops", ["sre"; "site reliability"; "platform engineer"]);
  ("mobile", ["ios"; "android"; "app developer"])
].

(** One entry of the answer of the vector index: the id of a chunk, its
    text and its distance to the query vector. *)
Record hit : Type := {
  hit_id : string;
  hit_document : string;
  hit_distance : R
}.

(** [HybridSearch._is_skill_query] *)
Definition _is_skill_query (query : string) : bool :=
  let words :=
    filter (fun w => negb (mem w STOP_WORDS)) (split (lower query)) in
  if (length words <=? 2)%nat then true
  else existsb (fun word => mem word TECH_SKILLS) words.

(** [HybridSearch._expand_with_synonyms].  The result is the content of a
    Python set: every word once.  The scorer iterates the set in an order
    that Python does not fix; here the order is the one of this list. *)
Definition _expand_with_synonyms (keywords : list string) : list string :=
  nodup string_dec
    (keywords
     ++ flat_map (fun word => Dict.get_default SYNONYMS (lower word) [])
          keywords)%list.

Definition title_keywords : list string :=
  ["developer"; "engineer"; "designer"; "manager"; "lead";
   "senior"; "junior"; "architect"; "analyst"; "scientist"].

(** The first loop of [_get_title_boost], for one title keyword. *)
Definition title_keyword_boost (query_lower text_lower : string)
  (boost : R) (keyword : string) : R :=
  if contains keyword query_lower then
    let boost := if contains keyword text_lower then boost + 0.15 else boost in
    match Dict.get TITLE_PATTERNS keyword with
    | Some synonyms =>
        if existsb (fun synonym => contains synonym text_lower) synonyms
        then boost + 0.1 else boost
    | None => boost
    end
  else boost.

(** The second loop of [_get_title_boost]: a tech skill followed by a title
    keyword in the query, found in the first 200 characters of the text. *)
Fixpoint tech_title_boost (query_words : list string) (text_lower : string)
  (boost : R) : R :=
  match query_words with
  | word :: ((next :: _) as rest) =>
      tech_title_boost rest text_lower
        (if mem word TECH_SKILLS && mem next title_keywords
            && contains word (slice_to 200 text_lower)
         then boost + 0.2 else boost)
  | _ => boost
  end.

(** [HybridSearch._get_title_boost] *)
Definition _get_title_boost (query text : string) : R :=
  let query_lower := lower query in
  let text_lower := lower text in
  let boost :=
    fold_left (title_keyword_boost query_lower text_lower) title_keywords 1 in
  let boost := tech_title_boost (split query_lower) text_lower boost in
  Rmin boost 1.5.

(** The keywords of a query, as [bm25_score] extracts them. *)
Definition keywords_of (query : string) : list string :=
  let all_words := findall_word (lower query) in
  let keywords :=
    filter (fun w => negb (mem w STOP_WORDS) && (2 <=? String.length w)%nat)
      all_words in
  match keywords with
  | [] => filter (fun w => (3 <=? String.length w)%nat) all_words
  | _ => keywords
  end.

(** The contribution of one expanded keyword to the score of a text. *)
Definition keyword_score (keywords : list string) (text_lower : string)
  (score : R) (word : string) : R :=
  let count := PyStr.count text_lower word in
  if (0 <? count)%nat then
    let base := 1 + ln (1 + INR count) in
    let base := if mem word TECH_SKILLS then base * 3 else base in
    let base := if negb (mem word keywords) then base * 0.8 else base in
    score + base
  else score.

(** The body of the loop of [bm25_score] over the documents: the score of
    one text before normalisation. *)
Definition raw_score (query : string) (keywords expanded_keywords : list string)
  (text : string) : R :=
  let text_lower := lower text in
  let score := fold_left (keyword_score keywords text_lower) expanded_keywords 0 in
  let score :=
    if contains (lower query) text_lower
    then score + INR (length keywords) * 2 else score in
  let title_boost := _get_title_boost query text in
  score * title_boost.

Definition raw_scores (query : string) (documents : Dict.t string) : Dict.t R :=
  let keywords := keywords_of query in
  let expanded_keywords := _expand_with_synonyms keywords in
  map (fun '(doc_id, text) =>
         (doc_id, raw_score query keywords expanded_keywords text))
    documents.

(** [max_score] at the end of the loop of [bm25_score]. *)
Definition max_score_of (scores : Dict.t R) : R :=
  fold_left (fun max_score '(_, score) => Rmax max_score score) scores 0.001.

(** [HybridSearch.bm25_score] *)
Definition bm25_score (query : string) (documents : Dict.t string) : Dict.t R :=
  let scores := raw_scores query documents in
  let max_score := max_score_of scores in
  if Rlt_dec 0 max_score
  then map (fun '(doc_id, s) => (doc_id, s / max_score)) scores
  else scores.

(** The weights [(semantic_weight, keyword_weight)] chosen by [search]. *)
Definition weights (is_skill : bool) : R * R :=
  if is_skill then (0.2, 0.8) else (0.6, 0.4).

(** The dictionaries [docs] and [vector_scores] that [search] fills from
    the answer of the vector index; a distance becomes the similarity
    [1 / (1 + distance)]. *)
Definition docs_of (vector_results : list hit) : Dict.t string :=
  fold_left (fun docs h => Dict.set docs (hit_id h) (hit_document h))
    vector_results [].

Definition vector_scores_of (vector_results : list hit) : Dict.t R :=
  fold_left (fun vs h => Dict.set vs (hit_id h) (1 / (1 + hit_distance h)))
    vector_results [].

(** Steps 2 to 4 of [search]: the keyword scores, the weights and the
    merged scores [final_scores], one per key of [docs]. *)
Definition final_scores_of (original_query : string) (docs : Dict.t string)
  (vector_scores : Dict.t R) : Dict.t R :=
  let bm25_scores := bm25_score original_query docs in
  let is_skill := _is_skill_query original_query in
  let '(semantic_weight, keyword_weight) := weights is_skill in
  map (fun doc_id =>
         let semantic := Dict.get_default vector_scores doc_id 0 in
         let keyword := Dict.get_default bm25_scores doc_id 0 in
         (doc_id, semantic_weight * semantic + keyword_weight * keyword))
    (Dict.keys docs).

Section Search.

(** [VectorStore.search]: the query of the external vector index, with
    the embedded query, [n_results] and the where-clause. *)
Variable embedding : Type.
Variable store_search :
  embedding -> Z -> option QueryParser.where_clause -> list hit.

(** [HybridSearch.search].  [original_query] is the attribute that the
    retriever sets before the call. *)
Definition search (original_query : string) (query : embedding)
  (filters : option QueryParser.where_clause) (k : Z)
  : list (string * R) * Dict.t string :=
  let vector_results := store_search query k filters in
  match vector_results with
  | [] => ([], [])
  | _ =>
      let docs := docs_of vector_results in
      let vector_scores := vector_scores_of vector_results in
      let final_scores := final_scores_of original_query docs vector_scores in
      (sorted_desc snd final_scores, docs)
  end.

End Search.

End HybridSearch.

(* ================================================================== *)
(** ** Candidates

    The dictionaries that the retriever returns and the ranker updates:
    ["id"], ["text"], ["retrieval_score"] and, once ranked, ["score"]. *)

Record candidate : Type := {
  cand_id : string;
  cand_text : string;
  retrieval_score : option R;
  score : option R
}.

(* ================================================================== *)
(** ** retrieval/retriever.py *)

Module Retriever.

Import PyStr.
Local Open Scope R_scope.

(** The value kept per CV while grouping:
    [{"score": .., "chunks": [..], "chunk_scores": [..]}]. *)
Record cv_entry : Type := {
  cv_score : R;
  chunks : list string;
  chunk_scores : list R
}.

Definition new_entry : cv_entry :=
  {| cv_score := 0; chunks := []; chunk_scores := [] |}.

(** [doc_id.split("_")[0]] *)
Definition cv_id_of (doc_id : string) : string := before_first "_" doc_id.

(** One iteration of the grouping loop over [ranked].  [docs[doc_id]] is
    defined for every id of [ranked]; the default is never used. *)
Definition add_chunk (docs : Dict.t string) (results : Dict.t cv_entry)
  (item : string * R) : Dict.t cv_entry :=
  let '(doc_id, score) := item in
  let cv_id := cv_id_of doc_id in
  let results :=
    if Dict.contains results cv_id then results
    else Dict.set results cv_id new_entry in
  let e := Dict.get_default results cv_id new_entry in
  Dict.set results cv_id
    {| cv_score := cv_score e;
       chunks := chunks e ++ [Dict.get_default docs doc_id ""];
       chunk_scores := chunk_scores e ++ [score] |}.

Definition group_by_cv (ranked : list (string * R)) (docs : Dict.t string)
  : Dict.t cv_entry :=
  fold_left (add_chunk docs) ranked [].

(** [max(l)] and [sum(l)] on a list of numbers. *)
Definition py_max (l : list R) : R :=
  match l with
  | [] => 0
  | x :: l' => fold_left Rmax l' x
  end.

Definition py_sum (l : list R) : R := fold_left Rplus l 0.

(** The score of one CV: 70% best chunk + 30% average of all chunks, in
    exact arithmetic ([Binary64.final_score] is the same computation on
    binary64 numbers). *)
Definition final_score (chunk_scores : list R) : R :=
  match chunk_scores with
  | [] => 0
  | _ =>
      let best_score := py_max chunk_scores in
      let avg_score := py_sum chunk_scores / INR (length chunk_scores) in
      0.7 * best_score + 0.3 * avg_score
  end.

Definition score_entry (e : cv_entry) : cv_entry :=
  {| cv_score := final_score (chunk_scores e);
     chunks := chunks e;
     chunk_scores := chunk_scores e |}.

(** The candidate built for one CV: the text is limited to three chunks. *)
Definition to_candidate (item : string * cv_entry) : candidate :=
  let '(cv_id, data) := item in
  {| cand_id := cv_id;
     cand_text := join " " (firstn 3 (chunks data));
     retrieval_score := Some (cv_score data);
     score := None |}.

(** Steps 4 and 5 of [retrieve]: from the fused ranking to the candidates. *)
Definition candidates_of (ranked : list (string * R)) (docs : Dict.t string)
  : list candidate :=
  let results := group_by_cv ranked docs in
  let results := map (fun '(cv_id, e) => (cv_id, score_entry e)) results in
  map to_candidate results.

(** Truth value of an optional list and of an optional string. *)
Definition truthy_list {X} (o : option (list X)) : bool :=
  match o with
  | Some (_ :: _) => true
  | _ => false
  end.

Definition truthy_str (o : option string) : bool :=
  match o with
  | Some (String _ _) => true
  | _ => false
  end.

Definition has_sql_filters (f : QueryParser.ui_filters) : bool :=
  truthy_list (QueryParser.languages f) || truthy_str (QueryParser.location f).

Definition fetch_k_of (f : QueryParser.ui_filters) (top_k : Z) : Z :=
  if has_sql_filters f then Z.max (top_k * 3) 60 else Z.max top_k 20.

(** A request sent to the vector index: the where-clause and [n_results]. *)
Definition store_call : Type := (option QueryParser.where_clause * Z)%type.

(** The result of [retrieve]: the pair that the method returns, and the
    requests that it sent to the vector index, in order. *)
Record retrieval : Type := {
  clean_query : string;
  candidates : list candidate;
  store_calls : list store_call
}.

Section Retrieve.

(** [Embedder.embed] and [VectorStore.search]. *)
Variable embedding : Type.
Variable embed : string -> embedding.
Variable store_search :
  embedding -> Z -> option QueryParser.where_clause -> list HybridSearch.hit.

Definition hybrid_search :=
  HybridSearch.search store_search.

(** Step 3 of [retrieve]: the filtered search when the parser produced a
    where-clause, then the unfiltered one when nothing was ranked. *)
Definition search_with_fallback (clean_query : string)
  (filters : option QueryParser.where_clause)
  (ui_filters : QueryParser.ui_filters) (top_k : Z)
  : list (string * R) * Dict.t string * list store_call :=
  let query_vector := embed clean_query in
  let fetch_k := fetch_k_of ui_filters top_k in
  let '(ranked, docs, calls) :=
    match filters with
    | Some _ =>
        (hybrid_search clean_query query_vector filters fetch_k,
         [(filters, fetch_k)])
    | None => ([], [], [])
    end in
  match ranked with
  | [] =>
      let fallback_k := Z.max top_k 20 in
      (hybrid_search clean_query query_vector None fallback_k,
       (calls ++ [(None, fallback_k)])%list)
  | _ => (ranked, docs, calls)
  end.

(** [Retriever.retrieve] *)
Definition retrieve (user_query : string)
  (ui_filters : QueryParser.ui_filters) (top_k : Z) : retrieval :=
  let '(clean_query, filters) := QueryParser.parse user_query ui_filters in
  let '(ranked, docs, calls) :=
    search_with_fallback clean_query filters ui_filters top_k in
  {| clean_query := clean_query;
     candidates := candidates_of ranked docs;
     store_calls := calls |}.

End Retrieve.

End Retriever.

(* ================================================================== *)
(** ** ranking/cross_encoder.py *)

Module CrossEncoder.

Local Open Scope R_scope.

(** [candidate.get("retrieval_score", 0)] and [x.get("score", 0)] *)
Definition retrieval_key (c : candidate) : R :=
  match retrieval_score c with
  | Some s => s
  | None => 0
  end.

Definition score_key (c : candidate) : R :=
  match score c with
  | Some s => s
  | None => 0
  end.

Definition with_score (s : R) (c : candidate) : candidate :=
  {| cand_id := cand_id c;
     cand_text := cand_text c;
     retrieval_score := retrieval_score c;
     score := Some s |}.

(** [if "score" not in candidate: candidate["score"] = ...] *)
Definition fill_score (c : candidate) : candidate :=
  match score c with
  | Some _ => c
  | None => with_score (retrieval_key c) c
  end.

(** [c'] is [c] once the fallback has given it a score: the score it had, or
    else its retrieval score. *)
Definition filled (c c' : candidate) : Prop :=
  cand_id c' = cand_id c /\ cand_text c' = cand_text c
  /\ retrieval_score c' = retrieval_score c
  /\ score c' = Some (match score c with
                      | Some s => s
                      | None => retrieval_key c
                      end).

(** The path taken when the service is unavailable and in the [except]
    branch: fall back to the retrieval scores. *)
Definition fallback (candidates : list candidate) : list candidate :=
  sorted_desc score_key (map fill_score candidates).

(** [candidates[idx]["score"] = s]; [None] stands for the [IndexError] of
    an index beyond the list. *)
Fixpoint set_score_at (idx : nat) (s : R) (candidates : list candidate)
  : option (list candidate) :=
  match candidates, idx with
  | [], _ => None
  | c :: l, O => Some (with_score s c :: l)
  | c :: l, S i => option_map (cons c) (set_score_at i s l)
  end.

(** The loop over [response.results]; scores attached before an exception
    stay attached.  The flag tells whether the loop ran to its end. *)
Fixpoint attach_scores (results : list (nat * R)) (candidates : list candidate)
  : list candidate * bool :=
  match results with
  | [] => (candidates, true)
  | (idx, s) :: rest =>
      match set_score_at idx s candidates with
      | Some candidates' => attach_scores rest candidates'
      | None => (candidates, false)
      end
  end.

Section Rank.

(** Whether a client could be obtained ([CrossEncoder.available]). *)
Variable available : bool.

(** [client.rerank(model, query, documents, top_n)]: the pairs of index
    and relevance score of the response, or [None] when the call
    raises. *)
Variable rerank : string -> list string -> nat -> option (list (nat * R)).

(** [CrossEncoder.rank] *)
Definition rank (query : string) (candidates : list candidate)
  : list candidate :=
  match candidates with
  | [] => candidates
  | _ =>
      if negb available then fallback candidates
      else
        match rerank query (map cand_text candidates) (length candidates) with
        | None => fallback candidates
        | Some results =>
            let '(scored, completed) := attach_scores results candidates in
            if completed then sorted_desc score_key scored
            else fallback scored
        end
  end.

End Rank.

End CrossEncoder.

(* ================================================================== *)
(** ** service.py: the search entry point *)

Module AIService.

(** [l[:n]] for an integer [n] of either sign. *)
Definition slice_to {X} (n : Z) (l : list X) : list X :=
  if (0 <=? n)%Z then firstn (Z.to_nat n) l
  else firstn (length l - Z.to_nat (- n)) l.

Section Search.

Variable embedding : Type.
Variable embed : string -> embedding.
Variable store_search :
  embedding -> Z -> option QueryParser.where_clause -> list HybridSearch.hit.
Variable ranker_available : bool.
Variable rerank : string -> list string -> nat -> option (list (nat * R)).

(** [AIService.search] up to the enrichment step, which only adds the
    database id to each of the candidates it is given. *)
Definition search (query : string) (filters : QueryParser.ui_filters)
  (top_k : Z) (use_reranking : bool) : list candidate :=
  let r := Retriever.retrieve embed store_search query filters top_k in
  match Retriever.candidates r with
  | [] => []
  | candidates =>
      let candidates :=
        if use_reranking && ranker_available
        then CrossEncoder.rank ranker_available rerank
               (Retriever.clean_query r) candidates
        else sorted_desc CrossEncoder.retrieval_key candidates in
      slice_to top_k candidates
  end.

End Search.

End AIService.

(* ================================================================== *)
(** ** ingestion/chunker.py and ingestion/pipeline.py *)

Module CVChunker.

Import PyStr.

(** The parsed CV ([cv_json]).  A field that is absent or [null] is
    [None]; an absent list is empty. *)
Record language : Type := {
  lang_name : option string;
  lang_level : option string
}.

Record experience : Type := {
  role : option string;
  organization : option string;
  exp_from : option string;
  exp_to : option string;
  description : option string
}.

Record education : Type := {
  degree : option string;
  field : option string;
  institution : option string;
  edu_from : option string;
  edu_to : option string
}.

Record cv : Type := {
  name : option string;
  location : option string;
  experience_years : option Z;
  title : option string;
  summary : option string;
  skills : list string;
  experience_list : list experience;
  education_list : list education;
  languages : list language;
  certifications : list string;
  projects_or_work : list string
}.

(** A metadata value: [None], a string or an integer. *)
Inductive scalar : Type :=
| SNone
| SStr (s : string)
| SInt (n : Z).

Definition of_str (o : option string) : scalar :=
  match o with
  | Some s => SStr s
  | None => SNone
  end.

Definition of_int (o : option Z) : scalar :=
  match o with
  | Some n => SInt n
  | None => SNone
  end.

Record chunk_t : Type := {
  id : string;
  text : string;
  metadata : Dict.t scalar
}.

(** How an f-string renders an optional field. *)
Definition fmt (o : option string) : string :=
  match o with
  | Some s => s
  | None => "None"
  end.

(** Truth value of an optional string. *)
Definition truthy (o : option string) : bool :=
  match o with
  | Some (String _ _) => true
  | _ => false
  end.

(** [enumerate(l)] *)
Definition enumerate {X} (l : list X) : list (nat * X) :=
  combine (seq 0 (length l)) l.

(** The names collected from the language entries. *)
Definition language_names_of (languages : list language) : list string :=
  flat_map
    (fun lang => if truthy (lang_name lang) then [fmt (lang_name lang)] else [])
    languages.

(** [CVChunker._build_chunk] *)
Definition _build_chunk (cv_id chunk_type text : string) (cv_json : cv)
  (language_names : list string) : chunk_t :=
  {| id := cv_id ++ "_" ++ chunk_type;
     text := text;
     metadata :=
       [ ("cv_id", SStr cv_id);
         ("chunk_type", SStr chunk_type);
         ("name", of_str (name cv_json));
         ("location", of_str (location cv_json));
         ("experience_years", of_int (experience_years cv_json));
         ("title", of_str (title cv_json));
         ("languages",
           match language_names with
           | [] => SNone
           | _ => SStr (join ", " language_names)
           end) ] |}.

(** [CVChunker.chunk].  [cv_id] is the value drawn by [str(uuid.uuid4())]
    at the start of the call. *)
Definition chunk (cv_id : string) (cv_json : cv) : list chunk_t :=
  let build chunk_type text :=
    _build_chunk cv_id chunk_type text cv_json
      (language_names_of (languages cv_json)) in
  let profile_text :=
    (if truthy (title cv_json)
     then "Job Title: " ++ fmt (title cv_json) ++ ". " else "")
    ++ (if truthy (summary cv_json)
        then "Summary: " ++ fmt (summary cv_json) else "") in
  let profile :=
    match strip profile_text with
    | EmptyString => []
    | _ => [build "profile" profile_text]
    end in
  let skills_chunk :=
    match skills cv_json with
    | [] => []
    | skills => [build "skills" ("Skills: " ++ join ", " skills)]
    end in
  let experience_chunks :=
    map (fun '(i, exp) =>
           build ("experience_" ++ of_nat i)
             ("Role: " ++ fmt (role exp) ++ ". "
              ++ "Company: " ++ fmt (organization exp) ++ ". "
              ++ "Period: " ++ fmt (exp_from exp) ++ " - "
              ++ fmt (exp_to exp) ++ ". "
              ++ "Description: " ++ fmt (description exp)))
      (enumerate (experience_list cv_json)) in
  let education_chunks :=
    map (fun '(i, edu) =>
           build ("education_" ++ of_nat i)
             ("Degree: " ++ fmt (degree edu) ++ ". "
              ++ "Field: " ++ fmt (field edu) ++ ". "
              ++ "Institution: " ++ fmt (institution edu) ++ ". "
              ++ "Period: " ++ fmt (edu_from edu) ++ " - "
              ++ fmt (edu_to edu)))
      (enumerate (education_list cv_json)) in
  let languages_chunk :=
    match languages cv_json with
    | [] => []
    | languages =>
        [build "languages"
           ("Languages: "
            ++ join ", "
                 (map (fun lang =>
                         fmt (lang_name lang) ++ " ("
                         ++ fmt (lang_level lang) ++ ")")
                    languages))]
    end in
  let certifications_chunk :=
    match certifications cv_json with
    | [] => []
    | certs => [build "certifications" ("Certifications: " ++ join ", " certs)]
    end in
  let project_chunks :=
    map (fun '(i, proj) => build ("project_" ++ of_nat i) ("Project: " ++ proj))
      (enumerate (projects_or_work cv_json)) in
  (profile ++ skills_chunk ++ experience_chunks ++ education_chunks
   ++ languages_chunk ++ certifications_chunk ++ project_chunks)%list.

End CVChunker.

Module IngestionPipeline.

Import CVChunker.

(** [clean_metadata]: [None] becomes the empty string. *)
Definition clean_metadata (meta : Dict.t scalar) : Dict.t scalar :=
  map (fun '(k, v) =>
         (k, match v with
             | SNone => SStr ""
             | _ => v
             end))
    meta.

(** What one call of [store.add] hands to the vector index. *)
Record store_entry (embedding : Type) : Type := {
  entry_id : string;
  entry_document : string;
  entry_embedding : embedding;
  entry_metadata : Dict.t scalar
}.

Section Ingest.

Variable embedding : Type.
Variable embed : string -> embedding.

(** [IngestionPipeline.ingest_one]: the entries added to the store, in
    order.  [cv_id] is the identifier drawn inside [chunk]. *)
Definition ingest_one (cv_id : string) (cv_json : cv)
  : list (store_entry embedding) :=
  map (fun c =>
         {| entry_id := id c;
            entry_document := text c;
            entry_embedding := embed (text c);
            entry_metadata := clean_metadata (metadata c) |})
    (chunk cv_id cv_json).

(** [AIService._ingest_with_candidate_id]: the same, with the database
    id written into the metadata before it is cleaned. *)
Definition _ingest_with_candidate_id (cv_id : string) (cv_data : cv)
  (candidate_id : Z) : list (store_entry embedding) :=
  map (fun c =>
         {| entry_id := id c;
            entry_document := text c;
            entry_embedding := embed (text c);
            entry_metadata :=
              clean_metadata
                (Dict.set (metadata c) "candidate_id" (SInt candidate_id)) |})
    (chunk cv_id cv_data).

End Ingest.

End IngestionPipeline.

(* ================================================================== *)
(** ** Concrete inputs used in the examples *)

Module Examples.

Local Open Scope R_scope.

(** Two candidates that already carry a ["score"] which orders them the
    other way round than their retrieval score. *)
Definition scored_a : candidate :=
  {| cand_id := "a"; cand_text := "first";
     retrieval_score := Some 0.9; score := Some 0.1 |}.

Definition scored_b : candidate :=
  {| cand_id := "b"; cand_text := "second";
     retrieval_score := Some 0.2; score := Some 0.5 |}.

(** Two candidates as the retriever builds them. *)
Definition fresh_a : candidate :=
  {| cand_id := "a"; cand_text := "first";
     retrieval_score := Some 0.2; score := None |}.

Definition fresh_b : candidate :=
  {| cand_id := "b"; cand_text := "second";
     retrieval_score := Some 0.9; score := None |}.

(** A re-ranking service whose every call raises. *)
Definition failing_rerank (_ : string) (_ : list string) (_ : nat)
  : option (list (nat * R)) := None.

(** A CV with a title and nothing else. *)
Definition titled_cv : CVChunker.cv :=
  {| CVChunker.name := None;
     CVChunker.location := None;
     CVChunker.experience_years := None;
     CVChunker.title := Some "Dev";
     CVChunker.summary := None;
     CVChunker.skills := [];
     CVChunker.experience_list := [];
     CVChunker.education_list := [];
     CVChunker.languages := [];
     CVChunker.certifications := [];
     CVChunker.projects_or_work := [] |}.

(** An embedder without content, and an index that answers every query
    with two chunks of the CV ["A"] and one of the CV ["B"]. *)
Definition unit_embed (_ : string) : unit := tt.

Definition three_hits : list HybridSearch.hit :=
  [ {| HybridSearch.hit_id := "A_skills";
       HybridSearch.hit_document := "a";
       HybridSearch.hit_distance := 0 |};
    {| HybridSearch.hit_id := "B_skills";
       HybridSearch.hit_document := "b";
       HybridSearch.hit_distance := 1 / 9 |};
    {| HybridSearch.hit_id := "A_profile";
       HybridSearch.hit_document := "c";
       HybridSearch.hit_distance := 3 |} ].

Definition small_index (_ : unit) (_ : Z)
  (_ : option QueryParser.where_clause) : list HybridSearch.hit :=
  three_hits.

(** An index on which every filtered query comes back empty. *)
Definition unfiltered_only (_ : unit) (_ : Z)
  (filters : option QueryParser.where_clause) : list HybridSearch.hit :=
  match filters with
  | Some _ => []
  | None => three_hits
  end.

(** An index without content. *)
Definition empty_index (_ : unit) (_ : Z)
  (_ : option QueryParser.where_clause) : list HybridSearch.hit := [].

Definition two_years_up : QueryParser.ui_filters :=
  {| QueryParser.min_experience := Some 2%Z;
     QueryParser.max_experience := None;
     QueryParser.languages := None;
     QueryParser.location := None |}.

Definition english_only : QueryParser.ui_filters :=
  {| QueryParser.min_experience := None;
     QueryParser.max_experience := None;
     QueryParser.languages := Some ["English"];
     QueryParser.location := None |}.

(** A re-ranking service that prefers the second of two documents. *)
Definition swapping_rerank (_ : string) (_ : list string) (_ : nat)
  : option (list (nat * R)) := Some [(1%nat, 0.9); (0%nat, 0.4)].

End Examples.

(* ================================================================== *)
(** ** Vocabulary of the statements *)

Module Segments.

Import CVChunker.

(** The chunk type recorded in the metadata of a chunk. *)
Definition chunk_type_of (c : chunk_t) : option scalar :=
  Dict.get (metadata c) "chunk_type".

(** The metadata of a chunk without the document id. *)
Definition document_metadata (c : chunk_t) : Dict.t scalar :=
  filter (fun kv => negb (String.eqb (fst kv) "cv_id")) (metadata c).

(** Every chunk is made by [_build_chunk] for the drawn document id. *)
Definition built (cv_id : string) (cv_json : cv) (c : chunk_t) : Prop :=
  exists chunk_type text,
    c = _build_chunk cv_id chunk_type text cv_json
          (language_names_of (languages cv_json)).

(** A chunk built for another document id: same type, text and document
    metadata. *)
Definition same_segment (c c' : chunk_t) : Prop :=
  text c = text c' /\ chunk_type_of c = chunk_type_of c'
  /\ document_metadata c = document_metadata c'.

End Segments.

Module Classification.

Import PyStr HybridSearch.
Local Open Scope R_scope.

(** The words that [_is_skill_query] looks at: the query in lower case, cut
    at white space, without the stop words. *)
Definition query_words (query : string) : list string :=
  filter (fun w => negb (mem w STOP_WORDS)) (split (lower query)).

(** The classification in the words of the specification: the tokens are
    those of step 1 of the lexical scorer. *)
Definition spec_is_skill_query (query : string) : bool :=
  let tokens := keywords_of query in
  (length tokens <=? 2)%nat || existsb (fun t => mem t TECH_SKILLS) tokens.

(** The merged score of one chunk, with the weights written out. *)
Definition fused_score (query : string) (vector_results : list hit)
  (doc_id : string) : R :=
  let vector := Dict.get_default (vector_scores_of vector_results) doc_id 0 in
  let lexical :=
    Dict.get_default (bm25_score query (docs_of vector_results)) doc_id 0 in
  if _is_skill_query query
  then 0.2 * vector + 0.8 * lexical
  else 0.6 * vector + 0.4 * lexical.

End Classification.

Module Aggregation.

Import PyStr.
Local Open Scope R_scope.

(** The fused scores of the chunks of one CV, in the order of the ranking. *)
Definition segment_scores (cv_id : string) (ranked : list (string * R))
  : list R :=
  map snd
    (filter (fun item => String.eqb (Retriever.cv_id_of (fst item)) cv_id)
       ranked).

(** [m] is the greatest element of [l]. *)
Definition is_maximum (m : R) (l : list R) : Prop :=
  In m l /\ Forall (fun x => x <= m) l.

(** The arithmetic mean of [l]. *)
Definition mean (l : list R) : R :=
  fold_right Rplus 0 l / INR (length l).

(** The distinct elements of [l], in the order of their first appearance. *)
Fixpoint first_appearance (l : list string) : list string :=
  match l with
  | [] => []
  | x :: l' =>
      x :: filter (fun y => negb (String.eqb y x)) (first_appearance l')
  end.

(** The CVs of a ranking, in the order of their first appearance. *)
Definition cvs_of (ranked : list (string * R)) : list string :=
  first_appearance (map (fun item => Retriever.cv_id_of (fst item)) ranked).

(** The state of the grouping loop after the items [done]: one entry per CV
    met so far, in the order of first appearance, holding the scores of its
    chunks. *)
Definition grouped (results : Dict.t Retriever.cv_entry)
  (done : list (string * R)) : Prop :=
  Dict.keys results = cvs_of done
  /\ forall cv_id,
      match Dict.get results cv_id with
      | Some e =>
          Retriever.chunk_scores e = segment_scores cv_id done
          /\ Retriever.chunk_scores e <> []
      | None => segment_scores cv_id done = []
      end.

End Aggregation.

Module Retrieval.

(** The fused ranking that [retrieve] groups: the one of the filtered search
    or, when that is empty, of the unfiltered search. *)
Definition ranking_of {embedding : Type} (embed : string -> embedding)
  (store_search : embedding -> Z -> option QueryParser.where_clause ->
                  list HybridSearch.hit)
  (user_query : string) (ui_filters : QueryParser.ui_filters) (top_k : Z)
  : list (string * R) :=
  fst (fst (Retriever.search_with_fallback embed store_search
              (PyStr.strip user_query)
              (QueryParser._build_filters ui_filters) ui_filters top_k)).

End Retrieval.

Module Lexical.

Local Open Scope R_scope.

(** A raw score is zero or at least 0.8: every matching keyword adds at
    least that much, and the title boost is at least 1. *)
Definition zero_or_large (s : R) : Prop := s = 0 \/ 0.8 <= s.

(** The score of [r] once normalised in a batch whose raw scores are
    [raw]. *)
Definition normalised (raw : Dict.t R) (r : R) : R :=
  r / HybridSearch.max_score_of raw.

End Lexical.

(* ================================================================== *)
(** ** retrieval/retriever.py: the aggregation formula on binary64 *)

Module Binary64.

Import PrimFloat.
Local Open Scope float_scope.

(** The conversion of [len(l)] to a float in [sum(l) / len(l)]; a length
    is far below 2^53, where the conversion is exact. *)
Fixpoint of_nat (n : nat) : float :=
  match n with
  | O => 0
  | S n' => of_nat n' + 1
  end.

(** [max(l)]: the first of the greatest elements. *)
Definition py_max (l : list float) : float :=
  match l with
  | [] => 0
  | x :: l' => fold_left (fun best y => if best <? y then y else best) l' x
  end.

(** [sum(l)]: the additions from the left, starting at 0. *)
Definition py_sum (l : list float) : float := fold_left add l 0.

(** [avg_score] *)
Definition avg_score (chunk_scores : list float) : float :=
  py_sum chunk_scores / of_nat (length chunk_scores).

(** The score of one CV, as [Retriever.final_score], with the roundings of
    the two products, the sum and the division. *)
Definition final_score (chunk_scores : list float) : float :=
  match chunk_scores with
  | [] => 0
  | _ =>
      let best_score := py_max chunk_scores in
      0.7 * best_score + 0.3 * avg_score chunk_scores
  end.

(** Steps 4 and 5 of [retrieve] on a fused ranking of binary64 scores, as
    [Retriever.group_by_cv] and [Retriever.candidates_of]. *)
Record cv_entry : Type := {
  cv_score : float;
  chunks : list string;
  chunk_scores : list float
}.

Definition new_entry : cv_entry :=
  {| cv_score := 0; chunks := []; chunk_scores := [] |}.

Definition add_chunk (docs : Dict.t string) (results : Dict.t cv_entry)
  (item : string * float) : Dict.t cv_entry :=
  let '(doc_id, score) := item in
  let cv_id := Retriever.cv_id_of doc_id in
  let results :=
    if Dict.contains results cv_id then results
    else Dict.set results cv_id new_entry in
  let e := Dict.get_default results cv_id new_entry in
  Dict.set results cv_id
    {| cv_score := cv_score e;
       chunks := (chunks e ++ [Dict.get_default docs doc_id ""%string])%list;
       chunk_scores := (chunk_scores e ++ [score])%list |}.

Definition group_by_cv (ranked : list (string * float)) (docs : Dict.t string)
  : Dict.t cv_entry :=
  fold_left (add_chunk docs) ranked [].

(** The candidates: ["id"], ["text"] and ["retrieval_score"]. *)
Definition candidates_of (ranked : list (string * float)) (docs : Dict.t string)
  : list (string * string * float) :=
  map (fun '(cv_id, e) =>
         (cv_id, PyStr.join " " (firstn 3 (chunks e)),
          final_score (chunk_scores e)))
    (group_by_cv ranked docs).

End Binary64.

(* ================================================================== *)
(** ** ranking/cross_encoder.py: the lazily loaded client *)

Module CohereClient.

(** The module-level variables [_client] and [_available]. *)
Record globals (client : Type) : Type := {
  _client : option client;
  _available : option bool
}.

Arguments _client {client} _.
Arguments _available {client} _.

(** Their values when the module is loaded. *)
Definition initial (client : Type) : globals client :=
  {| _client := None; _available := None |}.

Section GetClient.

Variable client : Type.

(** [import cohere] followed by [cohere.ClientV2(api_key)]: [None] when
    either raises. *)
Variable new_client : string -> option client.

(** [_get_client()].  [api_key] is the value of [settings.COHERE_API_KEY]
    at the time of the call; [None] and the empty string are falsy. *)
Definition _get_client (api_key : option string) (g : globals client)
  : option client * globals client :=
  match _available g with
  | Some true => (_client g, g)
  | _ =>
      match api_key with
      | Some (String _ _ as key) =>
          match new_client key with
          | Some c => (Some c, {| _client := Some c; _available := Some true |})
          | None => (None, {| _client := _client g; _available := Some false |})
          end
      | _ => (None, {| _client := _client g; _available := Some false |})
      end
  end.

(** The property [CrossEncoder.client] of an instance whose attribute
    [_client] is [self_client]: the attribute is loaded when it is [None]. *)
Definition client_of (api_key : option string) (self_client : option client)
  (g : globals client) : option client * globals client :=
  match self_client with
  | None => _get_client api_key g
  | Some c => (Some c, g)
  end.

(** [CrossEncoder.available] asked once for each element of [keys], the
    values that the key has at these times, on one instance: the clients
    seen, the attribute of the instance and the module variables at the
    end. *)
Fixpoint probes (keys : list (option string)) (self_client : option client)
  (g : globals client) : list (option client) * option client * globals client :=
  match keys with
  | [] => ([], self_client, g)
  | api_key :: keys' =>
      let '(c, g') := client_of api_key self_client g in
      let '(seen, self_client', g'') := probes keys' c g' in
      (c :: seen, self_client', g'')
  end.

(** A module state in which [_available] is [True] holds a client. *)
Definition consistent (g : globals client) : Prop :=
  _available g = Some true -> _client g <> None.

End GetClient.

End CohereClient.

(* ================================================================== *)
(** ** ingestion/pipeline.py: several CVs *)

Module IngestionBatch.

Section IngestMany.

Variable embedding : Type.
Variable embed : string -> embedding.

(** [IngestionPipeline.ingest_many]: the entries added to the store by the
    calls of [ingest_one], in order.  Each CV comes with the identifier
    drawn for it inside [chunk]. *)
Definition ingest_many (cvs : list (string * CVChunker.cv))
  : list (IngestionPipeline.store_entry embedding) :=
  flat_map
    (fun '(cv_id, cv_json) => IngestionPipeline.ingest_one embed cv_id cv_json)
    cvs.

End IngestMany.

End IngestionBatch.

(* ================================================================== *)
(** ** Vocabulary of the further properties *)

Module Further.

Local Open Scope R_scope.

(** What the ranker must not touch in a candidate. *)
Definition identity (c : candidate) : string * string * option R :=
  (cand_id c, cand_text c, retrieval_score c).

(** The relevance score that the loop over the response leaves at position
    [i]: the last one given for that index. *)
Definition relevance_of (results : list (nat * R)) (i : nat) : option R :=
  fold_left (fun acc '(idx, s) => if Nat.eqb idx i then Some s else acc)
    results None.

(** The texts of the chunks of one CV, in the order of the ranking. *)
Definition segment_texts (cv_id : string) (ranked : list (string * R))
  (docs : Dict.t string) : list string :=
  map (fun item => Dict.get_default docs (fst item) "")
    (filter (fun item => String.eqb (Retriever.cv_id_of (fst item)) cv_id)
       ranked).

(** The grouping loop keeps the texts of the chunks of each CV met so far. *)
Definition grouped_texts (docs : Dict.t string)
  (results : Dict.t Retriever.cv_entry) (done : list (string * R)) : Prop :=
  forall cv_id,
    match Dict.get results cv_id with
    | Some e => Retriever.chunks e = segment_texts cv_id done docs
    | None => segment_texts cv_id done docs = []
    end.

(** Number of segments that [chunk] makes for a record. *)
Definition segment_count (cv_json : CVChunker.cv) : nat :=
  (if CVChunker.truthy (CVChunker.title cv_json)
      || CVChunker.truthy (CVChunker.summary cv_json) then 1 else 0)
  + (match CVChunker.skills cv_json with [] => 0 | _ => 1 end)
  + length (CVChunker.experience_list cv_json)
  + length (CVChunker.education_list cv_json)
  + (match CVChunker.languages cv_json with [] => 0 | _ => 1 end)
  + (match CVChunker.certifications cv_json with [] => 0 | _ => 1 end)
  + length (CVChunker.projects_or_work cv_json).

(** The candidates once every relevance score of the response is written
    at its index, counting positions from [start]. *)
Fixpoint apply_from (results : list (nat * R)) (start : nat)
  (candidates : list candidate) : list candidate :=
  match candidates with
  | [] => []
  | c :: l =>
      match relevance_of results start with
      | Some s => CrossEncoder.with_score s c
      | None => c
      end :: apply_from results (S start) l
  end.

Definition apply_relevance (results : list (nat * R))
  (candidates : list candidate) : list candidate :=
  apply_from results 0 candidates.

(** Along a sequence of probes, a client once seen is seen ever after. *)
Definition client_kept {client : Type} (seen : list (option client)) : Prop :=
  StronglySorted (fun earlier later => earlier = None \/ later = earlier) seen.

(** A dictionary filled by one assignment per hit, as [docs] and
    [vector_scores] are in [search]. *)
Definition filled_from {V : Type} (value : HybridSearch.hit -> V)
  (hits : list HybridSearch.hit) (d : Dict.t V) : Dict.t V :=
  fold_left (fun d h => Dict.set d (HybridSearch.hit_id h) (value h)) hits d.

(** The chunk types of the segments of a record, in the order in which
    [chunk] makes them. *)
Definition segment_kinds (cv_json : CVChunker.cv) : list string :=
  let numbered (prefix : string) (n : nat) :=
    map (fun i => prefix ++ PyStr.of_nat i) (seq 0 n) in
  let profile :=
    if CVChunker.truthy (CVChunker.title cv_json)
       || CVChunker.truthy (CVChunker.summary cv_json)
    then ["profile"] else [] in
  let skills :=
    match CVChunker.skills cv_json with [] => [] | _ => ["skills"] end in
  let languages :=
    match CVChunker.languages cv_json with [] => [] | _ => ["languages"] end in
  let certifications :=
    match CVChunker.certifications cv_json with
    | [] => []
    | _ => ["certifications"]
    end in
  (profile ++ skills
   ++ numbered "experience_" (length (CVChunker.experience_list cv_json))
   ++ numbered "education_" (length (CVChunker.education_list cv_json))
   ++ languages ++ certifications
   ++ numbered "project_" (length (CVChunker.projects_or_work cv_json)))%list.

(** An identifier without underscore, as [uuid.uuid4()] draws them. *)
Definition no_underscore (cv_id : string) : Prop :=
  ~ In "_"%char (list_ascii_of_string cv_id).

End Further.

(* ================================================================== *)
(** * Properties *)

(** ** The stable descending sort *)

Section SortedDescFacts.

Local Open Scope R_scope.

Variable A : Type.
Variable key : A -> R.

Lemma insert_desc_perm (x : A) (l : list A) :
  Permutation (x :: l) (insert_desc key x l).
Proof.
  induction l as [|y l IH]; simpl; [reflexivity|].
  destruct (Rle_dec (key y) (key x)); [reflexivity|].
  rewrite perm_swap. now apply perm_skip.
Qed.

Lemma sorted_desc_perm (l : list A) : Permutation l (sorted_desc key l).
Proof.
  induction l as [|x l IH]; simpl; [reflexivity|].
  rewrite <- insert_desc_perm. now apply perm_skip.
Qed.

Lemma insert_desc_descending (x : A) (l : list A) :
  descending key l -> descending key (insert_desc key x l).
Proof.
  unfold descending. induction l as [|y l IH]; simpl; intros Hs.
  - repeat constructor.
  - destruct (Rle_dec (key y) (key x)) as [Hle|Hgt].
    + constructor; [assumption|].
      inversion Hs as [|? ? Hs' Hall]; subst.
      constructor; [assumption|].
      eapply Forall_impl; [|exact Hall]. simpl; intros; lra.
    + inversion Hs as [|? ? Hs' Hall]; subst.
      constructor; [now apply IH|].
      eapply Permutation_Forall; [apply insert_desc_perm|].
      constructor; [lra|assumption].
Qed.

Lemma sorted_desc_descending (l : list A) : descending key (sorted_desc key l).
Proof.
  induction l as [|x l IH]; simpl.
  - constructor.
  - now apply insert_desc_descending.
Qed.

Lemma insert_desc_with_key (k : R) (x : A) (l : list A) :
  with_key key k (insert_desc key x l) = with_key key k (x :: l).
Proof.
  unfold with_key. induction l as [|y l IH]; simpl; [reflexivity|].
  destruct (Rle_dec (key y) (key x)) as [Hle|Hgt]; [reflexivity|].
  simpl in *. rewrite IH.
  destruct (Req_dec_T (key x) k), (Req_dec_T (key y) k);
    try reflexivity.
  exfalso; lra.
Qed.

(** Stability: elements of equal key keep their order. *)
Lemma sorted_desc_stable (k : R) (l : list A) :
  with_key key k (sorted_desc key l) = with_key key k l.
Proof.
  induction l as [|x l IH]; simpl; [reflexivity|].
  rewrite insert_desc_with_key. unfold with_key in *. simpl.
  now rewrite IH.
Qed.

Lemma insert_desc_ext (key' : A -> R) (x : A) (l : list A) :
  key' x = key x -> Forall (fun y => key' y = key y) l ->
  insert_desc key' x l = insert_desc key x l.
Proof.
  intros Hx Hl. induction Hl as [|y l Hy Hl IH]; simpl; [reflexivity|].
  rewrite Hx, Hy, IH. reflexivity.
Qed.

End SortedDescFacts.

Lemma sorted_desc_ext (A : Type) (key key' : A -> R) (l : list A) :
  Forall (fun y => key' y = key y) l ->
  sorted_desc key' l = sorted_desc key l.
Proof.
  induction 1 as [|x l Hx Hl IH]; simpl; [reflexivity|].
  rewrite IH. apply insert_desc_ext; [assumption|].
  eapply Permutation_Forall; [apply sorted_desc_perm|assumption].
Qed.

Lemma insert_desc_map (A B : Type) (f : A -> B) (key : B -> R) (x : A)
  (l : list A) :
  insert_desc key (f x) (map f l) = map f (insert_desc (fun a => key (f a)) x l).
Proof.
  induction l as [|y l IH]; simpl; [reflexivity|].
  destruct (Rle_dec (key (f y)) (key (f x))); simpl; [reflexivity|].
  now rewrite IH.
Qed.

Lemma sorted_desc_map (A B : Type) (f : A -> B) (key : B -> R) (l : list A) :
  sorted_desc key (map f l) = map f (sorted_desc (fun a => key (f a)) l).
Proof.
  induction l as [|x l IH]; simpl; [reflexivity|].
  now rewrite IH, insert_desc_map.
Qed.

Unset Implicit Arguments.

(** Decides the comparisons of real constants that evaluation leaves in a
    goal, innermost first. *)
Ltac decide_reals :=
  repeat match goal with
    | |- context [Rle_dec ?a ?b] =>
        let H := fresh in
        first [ destruct (Rle_dec a b) as [_|H]; [|exfalso; clear - H; lra]
              | destruct (Rle_dec a b) as [H|_]; [exfalso; clear - H; lra|] ]
    | |- context [Rlt_dec ?a ?b] =>
        let H := fresh in
        first [ destruct (Rlt_dec a b) as [_|H]; [|exfalso; clear - H; lra]
              | destruct (Rlt_dec a b) as [H|_]; [exfalso; clear - H; lra|] ]
    end.

(** Closes an equation between evaluated lists, pairs, options and
    candidates whose real components are equal constants. *)
Ltac equal_reals :=
  repeat match goal with
    | |- @eq R _ _ => lra
    | |- @eq (list _) (_ :: _) (_ :: _) => apply f_equal2
    | |- @eq (_ * _)%type (_, _) (_, _) => apply f_equal2
    | |- @eq (option _) (Some _) (Some _) => apply f_equal
    | |- @eq candidate (Build_candidate _ _ _ _) (Build_candidate _ _ _ _) =>
        apply f_equal4
    | |- _ => reflexivity
    end.

(* ------------------------------------------------------------------ *)
(** ** The ranker without its service (C6) *)

Module RankFacts.

Import CrossEncoder.
Local Open Scope R_scope.

Lemma rank_unavailable rerank query candidates :
  rank false rerank query candidates = fallback candidates.
Proof. destruct candidates; reflexivity. Qed.

Lemma rank_call_raises available rerank query candidates :
  rerank query (map cand_text candidates) (length candidates) = None ->
  rank available rerank query candidates = fallback candidates.
Proof.
  intros Hcall. unfold rank. rewrite Hcall.
  destruct candidates; [reflexivity|]. now destruct available.
Qed.

Lemma fill_score_filled c : filled c (fill_score c).
Proof.
  unfold filled, fill_score. destruct c as [i t r [s|]]; simpl; auto.
Qed.

Lemma fill_all_filled candidates :
  Forall2 filled candidates (map fill_score candidates).
Proof.
  induction candidates; simpl; constructor; auto using fill_score_filled.
Qed.

Lemma fallback_fresh candidates :
  Forall (fun c => score c = None) candidates ->
  fallback candidates = map fill_score (sorted_desc retrieval_key candidates).
Proof.
  intros Hfresh. unfold fallback. rewrite sorted_desc_map. f_equal.
  apply sorted_desc_ext.
  eapply Forall_impl; [|exact Hfresh].
  intros c Hc. unfold score_key, fill_score. now rewrite Hc.
Qed.

End RankFacts.

(** C6, as the code has it: when the re-ranker is unavailable or the rerank
    call raises, [rank] gives every candidate that lacks a score its
    retrieval score (0 when it has none), keeps a score that is already
    there, and returns the list sorted by score, descending and stable,
    without an error.  When no candidate carries a score on entry, as for
    the candidates built by the retriever, that is the order by retrieval
    score, descending and stable. *)
Theorem C6_rank_degrades_to_retrieval_order :
  forall (available : bool)
         (rerank : string -> list string -> nat -> option (list (nat * R)))
         (query : string) (candidates : list candidate),
    available = false
    \/ rerank query (map cand_text candidates) (length candidates) = None ->
    let filled := map CrossEncoder.fill_score candidates in
    let out := CrossEncoder.rank available rerank query candidates in
    Forall2 CrossEncoder.filled candidates filled
    /\ Permutation filled out
    /\ descending CrossEncoder.score_key out
    /\ (forall k, with_key CrossEncoder.score_key k out
                  = with_key CrossEncoder.score_key k filled)
    /\ (Forall (fun c => score c = None) candidates ->
        out = map CrossEncoder.fill_score
                (sorted_desc CrossEncoder.retrieval_key candidates)
        /\ map cand_id out
           = map cand_id (sorted_desc CrossEncoder.retrieval_key candidates)).
Proof.
  intros available rerank query candidates Hdown filled out.
  assert (Hout : out = CrossEncoder.fallback candidates).
  { subst out. destruct Hdown as [->|Hcall].
    - apply RankFacts.rank_unavailable.
    - now apply RankFacts.rank_call_raises. }
  rewrite Hout. unfold CrossEncoder.fallback. fold filled.
  split; [apply RankFacts.fill_all_filled|].
  split; [apply sorted_desc_perm|].
  split; [apply sorted_desc_descending|].
  split; [intros k; apply sorted_desc_stable|].
  intros Hfresh.
  assert (Heq := RankFacts.fallback_fresh candidates Hfresh).
  unfold CrossEncoder.fallback in Heq. fold filled in Heq.
  split; [exact Heq|].
  rewrite Heq, map_map. apply map_ext_in.
  intros c _. apply RankFacts.fill_score_filled.
Qed.

(** C6 at a concrete input: an unavailable ranker and two candidates as
    the retriever builds them. *)
Lemma C6_witness :
  (false = false
   \/ Examples.failing_rerank "q"
        (map cand_text [Examples.fresh_a; Examples.fresh_b]) 2 = None)
  /\ Permutation
       (map CrossEncoder.fill_score [Examples.fresh_a; Examples.fresh_b])
       (CrossEncoder.rank false Examples.failing_rerank "q"
          [Examples.fresh_a; Examples.fresh_b]).
Proof.
  split; [left; reflexivity|].
  apply (C6_rank_degrades_to_retrieval_order false Examples.failing_rerank "q"
           [Examples.fresh_a; Examples.fresh_b]).
  left; reflexivity.
Defined.

(** C6 as stated fails for candidates that already carry a score: the
    fallback orders them by that score, not by their retrieval score. *)
Lemma C6_counterexample :
  map cand_id
    (CrossEncoder.rank false Examples.failing_rerank "q"
       [Examples.scored_a; Examples.scored_b]) = ["b"; "a"]
  /\ map cand_id
       (sorted_desc CrossEncoder.retrieval_key
          [Examples.scored_a; Examples.scored_b]) = ["a"; "b"].
Proof.
  split; vm_compute; decide_reals; reflexivity.
Qed.

(* ------------------------------------------------------------------ *)
(** ** The chunker and the ingestion pipeline (C7, C8) *)

Module ChunkFacts.

Import CVChunker IngestionPipeline Segments.

Lemma chunk_all_built cv_id cv_json :
  Forall (built cv_id cv_json) (chunk cv_id cv_json).
Proof.
  assert (Hmap : forall {X} (f : nat * X -> chunk_t) (l : list (nat * X)),
             (forall p, built cv_id cv_json (f p)) ->
             Forall (built cv_id cv_json) (map f l)).
  { intros X f l Hf. apply Forall_forall. intros c Hc.
    apply in_map_iff in Hc. destruct Hc as [p [<- _]]. apply Hf. }
  unfold chunk.
  repeat (apply Forall_app; split).
  - destruct (PyStr.strip _); constructor; [|constructor].
    now eexists _, _.
  - destruct (skills cv_json); constructor; [|constructor].
    now eexists _, _.
  - apply Hmap. intros [i x]. now eexists _, _.
  - apply Hmap. intros [i x]. now eexists _, _.
  - destruct (languages cv_json) at 1; constructor; [|constructor].
    now eexists _, _.
  - destruct (certifications cv_json); constructor; [|constructor].
    now eexists _, _.
  - apply Hmap. intros [i x]. now eexists _, _.
Qed.

Lemma chunk_same_segments cv_id cv_id' cv_json :
  Forall2 same_segment (chunk cv_id cv_json) (chunk cv_id' cv_json).
Proof.
  assert (Hmap : forall {X} (f g : X -> chunk_t) (l : list X),
             (forall x, same_segment (f x) (g x)) ->
             Forall2 same_segment (map f l) (map g l)).
  { intros X f g l Hfg. induction l; simpl; constructor; auto. }
  assert (Hb : forall k t,
             same_segment
               (_build_chunk cv_id k t cv_json
                  (language_names_of (languages cv_json)))
               (_build_chunk cv_id' k t cv_json
                  (language_names_of (languages cv_json)))).
  { intros k t. repeat split. }
  unfold chunk.
  repeat apply Forall2_app.
  - destruct (PyStr.strip _); repeat constructor; apply Hb.
  - destruct (skills cv_json); repeat constructor; apply Hb.
  - apply Hmap. intros [i x]. apply Hb.
  - apply Hmap. intros [i x]. apply Hb.
  - destruct (languages cv_json) at 1 3; repeat constructor; apply Hb.
  - destruct (certifications cv_json); repeat constructor; apply Hb.
  - apply Hmap. intros [i x]. apply Hb.
Qed.

End ChunkFacts.

(** C7, as the code has it: the texts, the chunk types and the document
    metadata of the segments are a function of the record alone, so that
    segmenting the same record again yields the same texts; every segment id
    is the document id, then ["_"], then the chunk type, where the document
    id is the identifier drawn at the start of the call and recorded in the
    metadata. *)
Theorem C7_segments_up_to_document_id :
  forall (cv_id cv_id' : string) (cv_json : CVChunker.cv),
    map CVChunker.text (CVChunker.chunk cv_id cv_json)
    = map CVChunker.text (CVChunker.chunk cv_id' cv_json)
    /\ Forall2 Segments.same_segment
         (CVChunker.chunk cv_id cv_json) (CVChunker.chunk cv_id' cv_json)
    /\ Forall
         (fun c =>
            Dict.get (CVChunker.metadata c) "cv_id"
            = Some (CVChunker.SStr cv_id)
            /\ exists chunk_type,
                Segments.chunk_type_of c = Some (CVChunker.SStr chunk_type)
                /\ CVChunker.id c = cv_id ++ "_" ++ chunk_type)
         (CVChunker.chunk cv_id cv_json).
Proof.
  intros cv_id cv_id' cv_json.
  assert (Hsame := ChunkFacts.chunk_same_segments cv_id cv_id' cv_json).
  split; [|split; [exact Hsame|]].
  - induction Hsame as [|c c' l l' [Ht _] _ IH]; simpl; [reflexivity|].
    now rewrite Ht, IH.
  - eapply Forall_impl; [|apply ChunkFacts.chunk_all_built].
    intros c [chunk_type [text ->]]. split; [reflexivity|].
    exists chunk_type. split; reflexivity.
Qed.

(** C7 as stated fails: two calls draw two document ids, and the segment
    ids of the same record differ. *)
Lemma C7_counterexample :
  map CVChunker.id (CVChunker.chunk "0b5c" Examples.titled_cv)
  = ["0b5c_profile"]
  /\ map CVChunker.id (CVChunker.chunk "7e21" Examples.titled_cv)
     = ["7e21_profile"]
  /\ map CVChunker.id (CVChunker.chunk "0b5c" Examples.titled_cv)
     <> map CVChunker.id (CVChunker.chunk "7e21" Examples.titled_cv).
Proof.
  repeat split; try reflexivity.
  vm_compute. discriminate.
Qed.

Module CleanFacts.

Import CVChunker IngestionPipeline.

Lemma clean_metadata_no_null meta :
  Forall (fun kv => snd kv <> SNone) (clean_metadata meta).
Proof.
  unfold clean_metadata. apply Forall_forall. intros kv Hkv.
  apply in_map_iff in Hkv. destruct Hkv as [[k v] [<- _]].
  destruct v; simpl; discriminate.
Qed.

(** The value that [clean_metadata] leaves for a value. *)
Lemma clean_metadata_get meta k :
  Dict.get (clean_metadata meta) k
  = option_map (fun v => match v with
                         | SNone => SStr ""
                         | _ => v
                         end) (Dict.get meta k).
Proof.
  induction meta as [|[k' v] meta IH]; simpl; [reflexivity|].
  destruct (String.eqb k k'); [reflexivity|exact IH].
Qed.

End CleanFacts.

(** C8, as the code has it: what ingestion hands to the vector index for
    any segment of any record carries no null metadata value, on both
    ingestion paths; the replacement of [None] by the empty string is made
    by [clean_metadata] in the pipeline, after the chunker has returned, so
    that the document-level fields that the record lacks reach the index as
    the empty string. *)
Theorem C8_no_null_metadata_in_store :
  forall (embedding : Type) (embed : string -> embedding)
         (cv_id : string) (cv_json : CVChunker.cv) (candidate_id : Z),
    Forall
      (fun e =>
         Forall (fun kv => snd kv <> CVChunker.SNone)
           (IngestionPipeline.entry_metadata e))
      (IngestionPipeline.ingest_one embed cv_id cv_json
       ++ IngestionPipeline._ingest_with_candidate_id embed cv_id cv_json
            candidate_id)%list
    /\ Forall
         (fun e =>
            let field k := Dict.get (IngestionPipeline.entry_metadata e) k in
            let str o := Some (CVChunker.SStr
                                 match o with
                                 | Some s => s
                                 | None => ""
                                 end) in
            field "name" = str (CVChunker.name cv_json)
            /\ field "location" = str (CVChunker.location cv_json)
            /\ field "title" = str (CVChunker.title cv_json)
            /\ field "experience_years"
               = Some match CVChunker.experience_years cv_json with
                      | Some n => CVChunker.SInt n
                      | None => CVChunker.SStr ""
                      end
            /\ field "languages"
               = Some (CVChunker.SStr
                         (PyStr.join ", "
                            (CVChunker.language_names_of
                               (CVChunker.languages cv_json)))))
         (IngestionPipeline.ingest_one embed cv_id cv_json).
Proof.
  intros embedding embed cv_id cv_json candidate_id. split.
  - apply Forall_app.
    split; apply Forall_forall; intros e He; apply in_map_iff in He;
      destruct He as [c [<- _]]; apply CleanFacts.clean_metadata_no_null.
  - unfold IngestionPipeline.ingest_one. apply Forall_map.
    eapply Forall_impl; [|apply ChunkFacts.chunk_all_built].
    intros c [chunk_type [text ->]]. cbv zeta.
    cbn [IngestionPipeline.entry_metadata].
    rewrite !CleanFacts.clean_metadata_get.
    repeat split.
    + simpl. now destruct (CVChunker.name cv_json).
    + simpl. now destruct (CVChunker.location cv_json).
    + simpl. now destruct (CVChunker.title cv_json).
    + simpl. now destruct (CVChunker.experience_years cv_json).
    + simpl. now destruct (CVChunker.language_names_of _).
Qed.

(** C8 as stated fails: the chunks that leave the chunker carry [None] for
    the fields that the record lacks; it is gone only in what the pipeline
    adds to the store. *)
Lemma C8_counterexample :
  map (fun c => Dict.get (CVChunker.metadata c) "languages")
    (CVChunker.chunk "0b5c" Examples.titled_cv) = [Some CVChunker.SNone]
  /\ map (fun c => Dict.get (CVChunker.metadata c) "name")
       (CVChunker.chunk "0b5c" Examples.titled_cv) = [Some CVChunker.SNone]
  /\ map (fun e => Dict.get (IngestionPipeline.entry_metadata e) "languages")
       (IngestionPipeline.ingest_one (fun _ => tt) "0b5c" Examples.titled_cv)
     = [Some (CVChunker.SStr "")].
Proof. repeat split. Qed.

(* ------------------------------------------------------------------ *)
(** ** Query classification and fusion (C1) *)

Module ClassificationFacts.

Import PyStr HybridSearch Classification.
Local Open Scope R_scope.

Lemma mem_In w S : mem w S = true <-> In w S.
Proof.
  unfold mem. rewrite existsb_exists. split.
  - intros [x [Hx Heq]]. apply String.eqb_eq in Heq. now subst.
  - intros Hw. exists w. split; [assumption|apply String.eqb_refl].
Qed.

Lemma is_skill_query_iff query :
  _is_skill_query query = true
  <-> (length (query_words query) <= 2)%nat
      \/ exists w, In w (query_words query) /\ In w TECH_SKILLS.
Proof.
  unfold _is_skill_query. fold (query_words query).
  destruct (Nat.leb_spec (length (query_words query)) 2) as [Hle|Hgt].
  - split; auto.
  - rewrite existsb_exists. split.
    + intros [w [Hw Hmem]]. right. exists w.
      split; [assumption|now apply mem_In].
    + intros [Hle|[w [Hw Hmem]]]; [lia|].
      exists w. split; [assumption|now apply mem_In].
Qed.

Lemma final_scores_fused query vector_results :
  final_scores_of query (docs_of vector_results)
    (vector_scores_of vector_results)
  = map (fun doc_id => (doc_id, fused_score query vector_results doc_id))
      (Dict.keys (docs_of vector_results)).
Proof.
  unfold final_scores_of, fused_score, weights.
  destruct (_is_skill_query query); reflexivity.
Qed.

(** The ranking returned by [search] holds the merged scores, sorted. *)
Lemma search_ranked {embedding : Type}
  (store_search : embedding -> Z -> option QueryParser.where_clause -> list hit)
  query qv filters k :
  fst (search store_search query qv filters k)
  = sorted_desc snd
      (map (fun doc_id =>
              (doc_id, fused_score query (store_search qv k filters) doc_id))
         (Dict.keys (docs_of (store_search qv k filters)))).
Proof.
  unfold search. destruct (store_search qv k filters) as [|h l] eqn:Hhits.
  - reflexivity.
  - cbv zeta. unfold fst. now rewrite final_scores_fused.
Qed.

End ClassificationFacts.

(** C1, as the code has it: a query is a skill query exactly when, after
    lower-casing, cutting at white space and dropping the stop words, at
    most two words remain or one of them is in the vocabulary of tech
    skills; the ranking of [search] then holds, for every retrieved chunk,
    0.2 x vector + 0.8 x lexical for a skill query and 0.6 x vector +
    0.4 x lexical otherwise.  ["flutter"] is a skill query, and so is
    ["Looking for a senior backend engineer with five years experience"],
    because ["backend"] is in the vocabulary; the same sentence about a
    software engineer is not. *)
Theorem C1_skill_query_and_weights :
  forall (query : string),
    (HybridSearch._is_skill_query query = true
     <-> (length (Classification.query_words query) <= 2)%nat
         \/ exists w, In w (Classification.query_words query)
                      /\ In w HybridSearch.TECH_SKILLS)
    /\ (forall (embedding : Type)
               (store_search : embedding -> Z ->
                               option QueryParser.where_clause ->
                               list HybridSearch.hit)
               (qv : embedding) (filters : option QueryParser.where_clause)
               (k : Z),
           Permutation
             (map (fun doc_id =>
                     (doc_id,
                      Classification.fused_score query
                        (store_search qv k filters) doc_id))
                (Dict.keys (HybridSearch.docs_of (store_search qv k filters))))
             (fst (HybridSearch.search store_search query qv filters k)))
    /\ HybridSearch.weights (HybridSearch._is_skill_query "flutter")
       = (0.2, 0.8)%R
    /\ HybridSearch.weights
         (HybridSearch._is_skill_query
            "Looking for a senior backend engineer with five years experience")
       = (0.2, 0.8)%R
    /\ HybridSearch.weights
         (HybridSearch._is_skill_query
            "Looking for a senior software engineer with five years experience")
       = (0.6, 0.4)%R.
Proof.
  intros query.
  split; [apply ClassificationFacts.is_skill_query_iff|].
  split; [|repeat split].
  intros embedding store_search qv filters k.
  rewrite ClassificationFacts.search_ranked. apply sorted_desc_perm.
Qed.

(** C1 as stated fails on its own second example: the query is classified
    as a skill query and fused with the weights 0.2 / 0.8. *)
Lemma C1_counterexample :
  HybridSearch._is_skill_query
    "Looking for a senior backend engineer with five years experience" = true
  /\ HybridSearch.weights
       (HybridSearch._is_skill_query
          "Looking for a senior backend engineer with five years experience")
     <> (0.6, 0.4)%R.
Proof.
  split; [reflexivity|].
  change (HybridSearch._is_skill_query _) with true. simpl.
  intros Heq. injection Heq as H1 H2. lra.
Qed.

(** The words of the classifier are not the tokens of the lexical scorer:
    punctuation stays attached to a word cut at white space. *)
Example skill_query_cuts_at_white_space :
  HybridSearch._is_skill_query "flutter, dart, kotlin." = false
  /\ Classification.spec_is_skill_query "flutter, dart, kotlin." = true
  /\ Classification.query_words "flutter, dart, kotlin."
     = ["flutter,"; "dart,"; "kotlin."]
  /\ HybridSearch.keywords_of "flutter, dart, kotlin."
     = ["flutter"; "dart"; "kotlin"].
Proof. repeat split. Qed.

(* ------------------------------------------------------------------ *)
(** ** Dictionaries *)

Module DictFacts.

Lemma get_set_same {V} (d : Dict.t V) k v : Dict.get (Dict.set d k v) k = Some v.
Proof.
  induction d as [|[k' v'] d IH]; simpl.
  - now rewrite String.eqb_refl.
  - destruct (String.eqb k k') eqn:E; simpl.
    + now rewrite String.eqb_refl.
    + now rewrite E.
Qed.

Lemma get_set_other {V} (d : Dict.t V) k k' v :
  k' <> k -> Dict.get (Dict.set d k v) k' = Dict.get d k'.
Proof.
  intros Hne. induction d as [|[k0 v0] d IH]; simpl.
  - apply String.eqb_neq in Hne. now rewrite Hne.
  - destruct (String.eqb k k0) eqn:E; simpl.
    + apply String.eqb_eq in E. subst k0.
      apply String.eqb_neq in Hne. now rewrite Hne.
    + destruct (String.eqb k' k0); [reflexivity|exact IH].
Qed.

Lemma contains_mem {V} (d : Dict.t V) k :
  Dict.contains d k = PyStr.mem k (Dict.keys d).
Proof.
  unfold Dict.contains. induction d as [|[k' v'] d IH]; simpl; [reflexivity|].
  destruct (String.eqb k k'); [reflexivity|exact IH].
Qed.

Lemma keys_set {V} (d : Dict.t V) k v :
  Dict.keys (Dict.set d k v)
  = if PyStr.mem k (Dict.keys d) then Dict.keys d
    else (Dict.keys d ++ [k])%list.
Proof.
  induction d as [|[k' v'] d IH]; simpl; [reflexivity|].
  destruct (String.eqb k k') eqn:E; simpl.
  - apply String.eqb_eq in E. now subst.
  - rewrite IH. now destruct (PyStr.mem k (Dict.keys d)).
Qed.

Lemma get_In {V} (d : Dict.t V) k v :
  NoDup (Dict.keys d) -> In (k, v) d -> Dict.get d k = Some v.
Proof.
  induction d as [|[k' v'] d IH]; simpl; intros Hnd Hin; [contradiction|].
  inversion Hnd as [|? ? Hnotin Hnd']; subst.
  destruct Hin as [Heq|Hin].
  - injection Heq as -> ->. now rewrite String.eqb_refl.
  - destruct (String.eqb k k') eqn:E.
    + apply String.eqb_eq in E. subst k'. exfalso. apply Hnotin.
      apply in_map_iff. now exists (k, v).
    + now apply IH.
Qed.

End DictFacts.

(* ------------------------------------------------------------------ *)
(** ** Grouping chunks by CV *)

Module GroupFacts.

Import PyStr Retriever Aggregation.
Local Open Scope R_scope.

Lemma segment_scores_app cv_id l1 l2 :
  segment_scores cv_id (l1 ++ l2)
  = (segment_scores cv_id l1 ++ segment_scores cv_id l2)%list.
Proof. unfold segment_scores. now rewrite filter_app, map_app. Qed.

Lemma mem_filter_other x a l :
  mem x (filter (fun y => negb (String.eqb y a)) l)
  = negb (String.eqb x a) && mem x l.
Proof.
  unfold mem. induction l as [|y l IH]; simpl.
  - now rewrite andb_false_r.
  - destruct (String.eqb y a) eqn:Eya; simpl.
    + rewrite IH. destruct (String.eqb x a) eqn:Exa; simpl; [reflexivity|].
      destruct (String.eqb x y) eqn:Exy; [|reflexivity].
      apply String.eqb_eq in Exy, Eya. subst.
      now rewrite String.eqb_refl in Exa.
    + rewrite IH. destruct (String.eqb x y) eqn:Exy; simpl.
      * apply String.eqb_eq in Exy. subst. now rewrite Eya.
      * reflexivity.
Qed.

Lemma first_appearance_snoc l x :
  first_appearance (l ++ [x])
  = if mem x (first_appearance l) then first_appearance l
    else (first_appearance l ++ [x])%list.
Proof.
  induction l as [|a l IH]; simpl; [reflexivity|].
  rewrite IH.
  pose proof (mem_filter_other x a (first_appearance l)) as Hm.
  unfold mem in *. simpl. rewrite Hm.
  destruct (String.eqb x a) eqn:Exa; simpl.
  - apply String.eqb_eq in Exa. subst a.
    destruct (existsb (String.eqb x) (first_appearance l)); [reflexivity|].
    rewrite filter_app. simpl. rewrite String.eqb_refl. simpl.
    now rewrite app_nil_r.
  - destruct (existsb (String.eqb x) (first_appearance l)); [reflexivity|].
    rewrite filter_app. simpl. now rewrite Exa.
Qed.

Lemma first_appearance_NoDup l : NoDup (first_appearance l).
Proof.
  induction l as [|a l IH]; simpl; constructor.
  - intros Hin. apply filter_In in Hin. destruct Hin as [_ Hne].
    now rewrite String.eqb_refl in Hne.
  - now apply NoDup_filter.
Qed.

Lemma add_chunk_grouped docs results done item :
  grouped results done ->
  grouped (add_chunk docs results item) (done ++ [item]).
Proof.
  intros [Hkeys Hget]. destruct item as [doc_id s].
  unfold add_chunk.
  set (cv0 := cv_id_of doc_id).
  set (results1 := if Dict.contains results cv0 then results
                   else Dict.set results cv0 new_entry).
  set (e0 := Dict.get_default results1 cv0 new_entry).
  assert (He0 : chunk_scores e0 = segment_scores cv0 done).
  { subst e0 results1. unfold Dict.get_default, Dict.contains.
    specialize (Hget cv0).
    destruct (Dict.get results cv0) as [e|] eqn:Eget.
    - rewrite Eget. apply Hget.
    - rewrite DictFacts.get_set_same. now rewrite Hget. }
  assert (Hkeys1 : Dict.keys results1
                   = if mem cv0 (Dict.keys results) then Dict.keys results
                     else (Dict.keys results ++ [cv0])%list).
  { subst results1. rewrite DictFacts.contains_mem.
    destruct (mem cv0 (Dict.keys results)) eqn:Emem; [reflexivity|].
    now rewrite DictFacts.keys_set, Emem. }
  split.
  - rewrite DictFacts.keys_set, Hkeys1.
    unfold cvs_of. rewrite map_app. simpl. fold cv0.
    rewrite first_appearance_snoc. fold (cvs_of done). rewrite <- Hkeys.
    destruct (mem cv0 (Dict.keys results)) eqn:Emem.
    + now rewrite Emem.
    + unfold mem. rewrite existsb_app. simpl.
      now rewrite String.eqb_refl, orb_true_r.
  - intros cv_id. rewrite segment_scores_app.
    assert (Hone : segment_scores cv_id [(doc_id, s)]
                   = if String.eqb cv0 cv_id then [s] else []).
    { unfold segment_scores. simpl. fold cv0.
      now destruct (String.eqb cv0 cv_id). }
    rewrite Hone. clear Hone.
    destruct (String.eqb cv0 cv_id) eqn:Ecv.
    + apply String.eqb_eq in Ecv. subst cv_id.
      rewrite DictFacts.get_set_same. simpl. rewrite He0.
      split; [reflexivity|]. now destruct (segment_scores cv0 done).
    + apply String.eqb_neq in Ecv.
      rewrite DictFacts.get_set_other by congruence.
      rewrite app_nil_r.
      replace (Dict.get results1 cv_id) with (Dict.get results cv_id);
        [apply Hget|].
      subst results1. destruct (Dict.contains results cv0); [reflexivity|].
      now rewrite DictFacts.get_set_other by congruence.
Qed.

Lemma fold_add_chunk_grouped docs l results done :
  grouped results done ->
  grouped (fold_left (add_chunk docs) l results) (done ++ l).
Proof.
  revert results done. induction l as [|item l IH]; intros results done Hg.
  - simpl. now rewrite app_nil_r.
  - simpl. replace (done ++ item :: l)%list with ((done ++ [item]) ++ l)%list
      by now rewrite <- app_assoc.
    apply IH. now apply add_chunk_grouped.
Qed.

Lemma group_by_cv_grouped ranked docs :
  grouped (group_by_cv ranked docs) ranked.
Proof.
  apply (fold_add_chunk_grouped docs ranked [] []).
  split; [reflexivity|]. intros cv_id. reflexivity.
Qed.

(** The candidates built from a ranking: one per CV, in the order of first
    appearance, scored from the fused scores of its chunks. *)
Lemma candidates_of_ranking ranked docs :
  map cand_id (candidates_of ranked docs) = cvs_of ranked
  /\ Forall
       (fun c =>
          segment_scores (cand_id c) ranked <> []
          /\ retrieval_score c
             = Some (final_score (segment_scores (cand_id c) ranked))
          /\ score c = None)
       (candidates_of ranked docs).
Proof.
  destruct (group_by_cv_grouped ranked docs) as [Hkeys Hget].
  unfold candidates_of. split.
  - rewrite <- Hkeys. unfold Dict.keys. rewrite !map_map.
    apply map_ext. now intros [cv_id e].
  - rewrite map_map. apply Forall_map, Forall_forall.
    intros [cv_id e] Hin. simpl.
    assert (Hnd : NoDup (Dict.keys (group_by_cv ranked docs))).
    { rewrite Hkeys. apply first_appearance_NoDup. }
    specialize (Hget cv_id).
    rewrite (DictFacts.get_In _ _ _ Hnd Hin) in Hget.
    destruct Hget as [Hscores Hne]. rewrite <- Hscores. auto.
Qed.

End GroupFacts.

(* ------------------------------------------------------------------ *)
(** ** The score of a CV *)

Module ScoreFacts.

Import Retriever Aggregation.
Local Open Scope R_scope.

Lemma fold_left_Rmax_spec l : forall x,
  (fold_left Rmax l x = x \/ In (fold_left Rmax l x) l)
  /\ x <= fold_left Rmax l x
  /\ Forall (fun y => y <= fold_left Rmax l x) l.
Proof.
  induction l as [|y l IH]; intros x; simpl.
  - repeat split; [now left|lra|constructor].
  - destruct (IH (Rmax x y)) as [Hin [Hle Hall]].
    pose proof (Rmax_l x y). pose proof (Rmax_r x y).
    repeat split.
    + destruct Hin as [Heq|Hin]; [|now right; right].
      rewrite Heq. unfold Rmax. destruct (Rle_dec x y); auto.
    + lra.
    + constructor; [lra|assumption].
Qed.

Lemma py_max_is_maximum x l : is_maximum (py_max (x :: l)) (x :: l).
Proof.
  unfold is_maximum, py_max.
  destruct (fold_left_Rmax_spec l x) as [Hin [Hle Hall]].
  split.
  - destruct Hin as [->|Hin]; [now left|now right].
  - now constructor.
Qed.

Lemma fold_left_Rplus l : forall a,
  fold_left Rplus l a = a + fold_right Rplus 0 l.
Proof.
  induction l as [|y l IH]; intros a; simpl; [lra|].
  rewrite IH. lra.
Qed.

Lemma py_sum_fold_right l : py_sum l = fold_right Rplus 0 l.
Proof. unfold py_sum. rewrite fold_left_Rplus. lra. Qed.

Lemma final_score_formula S :
  S <> [] -> final_score S = 0.7 * py_max S + 0.3 * mean S.
Proof.
  intros Hne. destruct S as [|x l]; [contradiction|].
  unfold final_score, mean. now rewrite py_sum_fold_right.
Qed.

Lemma sum_le hi l :
  Forall (fun y => y <= hi) l -> fold_right Rplus 0 l <= INR (length l) * hi.
Proof.
  induction 1 as [|y l Hy Hl IH].
  - simpl. lra.
  - change (length (y :: l)) with (S (length l)). rewrite S_INR.
    simpl. lra.
Qed.

Lemma sum_ge lo l :
  Forall (fun y => lo <= y) l -> INR (length l) * lo <= fold_right Rplus 0 l.
Proof.
  induction 1 as [|y l Hy Hl IH].
  - simpl. lra.
  - change (length (y :: l)) with (S (length l)). rewrite S_INR.
    simpl. lra.
Qed.

Lemma length_pos {X} (l : list X) : l <> [] -> 0 < INR (length l).
Proof.
  intros Hne. destruct l; [contradiction|]. apply lt_0_INR. simpl. lia.
Qed.

Lemma mean_le hi l :
  l <> [] -> Forall (fun y => y <= hi) l -> mean l <= hi.
Proof.
  intros Hne Hall. pose proof (sum_le hi l Hall) as Hsum.
  pose proof (length_pos l Hne) as Hn. unfold mean.
  apply Rmult_le_reg_r with (INR (length l)); [assumption|].
  unfold Rdiv. rewrite Rmult_assoc, Rinv_l by lra. lra.
Qed.

Lemma mean_ge lo l :
  l <> [] -> Forall (fun y => lo <= y) l -> lo <= mean l.
Proof.
  intros Hne Hall. pose proof (sum_ge lo l Hall) as Hsum.
  pose proof (length_pos l Hne) as Hn. unfold mean.
  apply Rmult_le_reg_r with (INR (length l)); [assumption|].
  unfold Rdiv. rewrite Rmult_assoc, Rinv_l by lra. lra.
Qed.

(** The score of a CV lies between the mean and the maximum of the scores
    of its chunks. *)
Lemma final_score_between S :
  S <> [] ->
  is_maximum (py_max S) S
  /\ mean S <= final_score S <= py_max S.
Proof.
  intros Hne. rewrite (final_score_formula S Hne).
  assert (Hmax : is_maximum (py_max S) S).
  { destruct S; [contradiction|]. apply py_max_is_maximum. }
  split; [exact Hmax|].
  pose proof (mean_le (py_max S) S Hne (proj2 Hmax)). lra.
Qed.

Lemma final_score_unit_interval S :
  S <> [] -> Forall (fun s => 0 <= s <= 1) S -> 0 <= final_score S <= 1.
Proof.
  intros Hne Hall.
  destruct (final_score_between S Hne) as [[Hin _] Hbetween].
  assert (Hlo : 0 <= mean S).
  { apply mean_ge; [assumption|].
    eapply Forall_impl; [|exact Hall]. simpl. intros; lra. }
  rewrite Forall_forall in Hall. apply Hall in Hin. lra.
Qed.

End ScoreFacts.

(* ------------------------------------------------------------------ *)
(** ** The retriever *)

Module RetrieveFacts.

Import Retriever Aggregation Retrieval.
Local Open Scope R_scope.

Section WithEngine.

Variable embedding : Type.
Variable embed : string -> embedding.
Variable store_search :
  embedding -> Z -> option QueryParser.where_clause -> list HybridSearch.hit.

Lemma retrieve_candidates user_query ui_filters top_k :
  let sf := search_with_fallback embed store_search (PyStr.strip user_query)
              (QueryParser._build_filters ui_filters) ui_filters top_k in
  retrieve embed store_search user_query ui_filters top_k
  = {| clean_query := PyStr.strip user_query;
       candidates := candidates_of (fst (fst sf)) (snd (fst sf));
       store_calls := snd sf |}.
Proof.
  unfold retrieve, QueryParser.parse. cbv zeta.
  now destruct (search_with_fallback _ _ _ _ _ _) as [[ranked docs] calls].
Qed.

Lemma search_no_hits query qv filters k :
  store_search qv k filters = [] ->
  HybridSearch.search store_search query qv filters k = ([], []).
Proof. intros Hhits. unfold HybridSearch.search. now rewrite Hhits. Qed.

(** A search without a where-clause from the parser goes to the unfiltered
    search at once. *)
Lemma search_with_fallback_unfiltered clean ui_filters top_k :
  search_with_fallback embed store_search clean None ui_filters top_k
  = (HybridSearch.search store_search clean (embed clean) None
       (Z.max top_k 20),
     [(None, Z.max top_k 20)]).
Proof. reflexivity. Qed.

(** A filtered search without hits is followed by the unfiltered search. *)
Lemma search_with_fallback_no_hits clean w ui_filters top_k :
  store_search (embed clean) (fetch_k_of ui_filters top_k) (Some w) = [] ->
  search_with_fallback embed store_search clean (Some w) ui_filters top_k
  = (HybridSearch.search store_search clean (embed clean) None
       (Z.max top_k 20),
     [(Some w, fetch_k_of ui_filters top_k); (None, Z.max top_k 20)]).
Proof.
  intros Hhits. unfold search_with_fallback, hybrid_search. cbv zeta.
  now rewrite (search_no_hits clean _ _ _ Hhits).
Qed.

(** What [retrieve] returns for each CV of the ranking it groups. *)
Lemma retrieve_scored user_query ui_filters top_k :
  let ranked := ranking_of embed store_search user_query ui_filters top_k in
  let r := retrieve embed store_search user_query ui_filters top_k in
  map cand_id (candidates r) = cvs_of ranked
  /\ Forall
       (fun c =>
          segment_scores (cand_id c) ranked <> []
          /\ retrieval_score c
             = Some (final_score (segment_scores (cand_id c) ranked))
          /\ score c = None)
       (candidates r).
Proof.
  cbv zeta. rewrite retrieve_candidates. cbv zeta. simpl candidates.
  apply GroupFacts.candidates_of_ranking.
Qed.

End WithEngine.

End RetrieveFacts.

(* ------------------------------------------------------------------ *)
(** ** The lexical scorer (C3) *)

Module LexicalFacts.

Import PyStr HybridSearch Lexical.
Local Open Scope R_scope.

Lemma keyword_score_step keywords text_lower s word :
  keyword_score keywords text_lower s word = s
  \/ s + 0.8 <= keyword_score keywords text_lower s word.
Proof.
  unfold keyword_score.
  destruct (Nat.ltb_spec 0 (count text_lower word)) as [Hpos|_]; [right|now left].
  assert (Hln : 0 <= ln (1 + INR (count text_lower word))).
  { rewrite <- ln_1. apply Rlt_le, ln_increasing; [lra|].
    pose proof (lt_0_INR _ Hpos). lra. }
  destruct (mem word TECH_SKILLS), (negb (mem word keywords)); lra.
Qed.

Lemma keyword_scores_zero_or_large keywords text_lower words : forall s,
  zero_or_large s ->
  zero_or_large (fold_left (keyword_score keywords text_lower) words s).
Proof.
  induction words as [|w words IH]; intros s Hs; simpl; [assumption|].
  apply IH. unfold zero_or_large in *.
  destruct (keyword_score_step keywords text_lower s w) as [->|Hstep];
    [assumption|].
  right. destruct Hs; lra.
Qed.

Lemma title_keyword_boost_grows q t b kw : b <= title_keyword_boost q t b kw.
Proof.
  unfold title_keyword_boost.
  destruct (contains kw q); [|lra].
  destruct (contains kw t), (Dict.get TITLE_PATTERNS kw) as [syns|];
    try destruct (existsb _ syns); lra.
Qed.

Lemma title_keywords_boost_grows q t kws : forall b,
  b <= fold_left (title_keyword_boost q t) kws b.
Proof.
  induction kws as [|kw kws IH]; intros b; simpl; [lra|].
  pose proof (title_keyword_boost_grows q t b kw).
  specialize (IH (title_keyword_boost q t b kw)). lra.
Qed.

Lemma tech_title_boost_grows words t : forall b,
  b <= tech_title_boost words t b.
Proof.
  induction words as [|w words IH]; intros b; simpl; [lra|].
  destruct words as [|next rest]; [lra|].
  eapply Rle_trans; [|apply IH].
  destruct (_ && _); lra.
Qed.

Lemma title_boost_range query text : 1 <= _get_title_boost query text <= 1.5.
Proof.
  unfold _get_title_boost. cbv zeta. split.
  - apply Rmin_glb; [|lra].
    eapply Rle_trans; [|apply tech_title_boost_grows].
    apply title_keywords_boost_grows.
  - apply Rmin_r.
Qed.

Lemma raw_score_zero_or_large query keywords expanded text :
  zero_or_large (raw_score query keywords expanded text).
Proof.
  unfold raw_score. cbv zeta.
  pose proof (title_boost_range query text) as Hboost.
  set (boost := _get_title_boost query text) in *.
  set (s := fold_left (keyword_score keywords (lower text)) expanded 0).
  assert (Hs : zero_or_large s).
  { apply keyword_scores_zero_or_large. now left. }
  assert (Hs' : zero_or_large
                  (if contains (lower query) (lower text)
                   then s + INR (length keywords) * 2 else s)).
  { destruct (contains _ _); [|assumption].
    destruct keywords as [|w keywords].
    - simpl. now replace (s + 0 * 2) with s by lra.
    - right. change (length (w :: keywords)) with (S (length keywords)).
      rewrite S_INR. pose proof (pos_INR (length keywords)).
      destruct Hs; lra. }
  destruct Hs' as [->|Hlarge]; [left; lra|right; nra].
Qed.

Lemma raw_scores_zero_or_large query documents :
  Forall (fun item => zero_or_large (snd item)) (raw_scores query documents).
Proof.
  unfold raw_scores. apply Forall_map, Forall_forall.
  intros [doc_id text] _. apply raw_score_zero_or_large.
Qed.

Lemma fold_max_spec (scores : Dict.t R) : forall m0,
  let m := fold_left (fun max_score '(_, score) => Rmax max_score score)
             scores m0 in
  m0 <= m
  /\ Forall (fun item => snd item <= m) scores
  /\ (m = m0 \/ In m (map snd scores)).
Proof.
  induction scores as [|[k s] scores IH]; intros m0; simpl.
  - repeat split; [lra|constructor|now left].
  - destruct (IH (Rmax m0 s)) as [Hle [Hall Hin]].
    pose proof (Rmax_l m0 s). pose proof (Rmax_r m0 s).
    repeat split.
    + lra.
    + constructor; [simpl; lra|assumption].
    + destruct Hin as [Heq|Hin]; [|now right; right].
      rewrite Heq. unfold Rmax. destruct (Rle_dec m0 s); auto.
Qed.

(** [max_score] is the greatest of 0.001 and the raw scores. *)
Lemma max_score_is_maximum scores :
  Aggregation.is_maximum (max_score_of scores) (0.001 :: map snd scores).
Proof.
  destruct (fold_max_spec scores 0.001) as [Hle [Hall Hin]].
  fold (max_score_of scores) in *. split.
  - destruct Hin as [->|Hin]; [now left|now right].
  - constructor; [assumption|]. now apply Forall_map.
Qed.

Lemma max_score_positive scores : 0.001 <= max_score_of scores.
Proof. apply (fold_max_spec scores 0.001). Qed.

(** The branch [if max_score > 0] is always taken. *)
Lemma bm25_score_normalised query documents :
  bm25_score query documents
  = map (fun '(doc_id, r) =>
           (doc_id, r / max_score_of (raw_scores query documents)))
      (raw_scores query documents).
Proof.
  unfold bm25_score. cbv zeta.
  pose proof (max_score_positive (raw_scores query documents)).
  destruct (Rlt_dec 0 (max_score_of (raw_scores query documents)));
    [reflexivity|lra].
Qed.

Lemma bm25_score_keys query documents :
  Dict.keys (bm25_score query documents) = Dict.keys documents.
Proof.
  rewrite bm25_score_normalised. unfold raw_scores, Dict.keys.
  rewrite !map_map. apply map_ext. now intros [doc_id text].
Qed.

(** The contribution of a keyword does not depend on the score reached so
    far: the score of the loop is the sum of the contributions. *)
Lemma keyword_score_adds keywords text_lower s word :
  keyword_score keywords text_lower s word
  = s + keyword_score keywords text_lower 0 word.
Proof.
  unfold keyword_score. destruct (0 <? count text_lower word)%nat; lra.
Qed.

Lemma keyword_scores_sum keywords text_lower words : forall s,
  fold_left (keyword_score keywords text_lower) words s
  = s + fold_right Rplus 0 (map (keyword_score keywords text_lower 0) words).
Proof.
  induction words as [|w words IH]; intros s; simpl; [lra|].
  rewrite IH, (keyword_score_adds keywords text_lower s w). lra.
Qed.

End LexicalFacts.

(** C3, as the code has it: the scorer gives every id of the batch its raw
    score divided by [max_score], the greatest of 0.001 and the raw scores
    of the batch; every score it returns is in [0,1]; an id whose raw score
    is 0 keeps 0; and an id whose raw score is the highest of the batch gets
    1 whenever that raw score is not 0. *)
Theorem C3_lexical_scores_normalised :
  forall (query : string) (documents : Dict.t string),
    let raw := HybridSearch.raw_scores query documents in
    Dict.keys (HybridSearch.bm25_score query documents) = Dict.keys documents
    /\ HybridSearch.bm25_score query documents
       = map (fun '(doc_id, r) => (doc_id, Lexical.normalised raw r)) raw
    /\ Aggregation.is_maximum (HybridSearch.max_score_of raw)
         (0.001 :: map snd raw)%R
    /\ Forall (fun item => (0 <= snd item <= 1)%R)
         (HybridSearch.bm25_score query documents)
    /\ Forall
         (fun item =>
            (snd item = 0 -> Lexical.normalised raw (snd item) = 0)%R
            /\ (snd item <> 0%R ->
                Forall (fun other => (snd other <= snd item)%R) raw ->
                Lexical.normalised raw (snd item) = 1%R))
         raw.
Proof.
  intros query documents raw.
  pose proof (LexicalFacts.max_score_is_maximum raw) as [Hin Hall].
  pose proof (LexicalFacts.max_score_positive raw) as Hpos.
  pose proof (LexicalFacts.raw_scores_zero_or_large query documents) as Hraw.
  fold raw in Hraw.
  split; [apply LexicalFacts.bm25_score_keys|].
  split; [apply LexicalFacts.bm25_score_normalised|].
  split; [now split|].
  inversion Hall as [|? ? _ Hle]; subst.
  rewrite Forall_map in Hle. rewrite Forall_forall in Hle, Hraw.
  split.
  - rewrite LexicalFacts.bm25_score_normalised. fold raw.
    apply Forall_map, Forall_forall. intros [doc_id r] Hitem. simpl.
    specialize (Hle _ Hitem). specialize (Hraw _ Hitem). simpl in Hle, Hraw.
    assert (H0 : (0 <= r)%R) by (destruct Hraw; lra).
    split.
    + apply Rmult_le_pos; [assumption|].
      apply Rlt_le, Rinv_0_lt_compat. lra.
    + apply Rmult_le_reg_r with (HybridSearch.max_score_of raw); [lra|].
      unfold Rdiv. rewrite Rmult_assoc, Rinv_l by lra. lra.
  - apply Forall_forall. intros [doc_id r] Hitem. simpl.
    unfold Lexical.normalised. split.
    + intros ->. unfold Rdiv. apply Rmult_0_l.
    + intros Hne Htop. specialize (Hraw _ Hitem). simpl in Hraw.
      assert (Hr : (0.8 <= r)%R) by (destruct Hraw; [contradiction|lra]).
      assert (Hmax : HybridSearch.max_score_of raw = r).
      { specialize (Hle _ Hitem). simpl in Hle.
        destruct Hin as [Heq|Hin]; [lra|].
        apply in_map_iff in Hin. destruct Hin as [other [Heq Hother]].
        rewrite Forall_forall in Htop. specialize (Htop _ Hother). lra. }
      rewrite Hmax. unfold Rdiv. apply Rinv_r. lra.
Qed.

(** C3 as stated fails in a batch without any match: the only id, which
    has the highest raw score of its batch, gets 0 and not 1. *)
Lemma C3_counterexample :
  HybridSearch.raw_scores "python" [("cv1_skills", "Skills: java")]
  = [("cv1_skills", 0%R)]
  /\ HybridSearch.bm25_score "python" [("cv1_skills", "Skills: java")]
     = [("cv1_skills", 0%R)]
  /\ 0%R <> 1%R.
Proof.
  assert (Hraw : HybridSearch.raw_scores "python"
                   [("cv1_skills", "Skills: java")] = [("cv1_skills", 0%R)]).
  { vm_compute. decide_reals. equal_reals. }
  split; [exact Hraw|]. split; [|lra].
  rewrite LexicalFacts.bm25_score_normalised, Hraw. simpl.
  repeat f_equal. unfold Rdiv. apply Rmult_0_l.
Qed.

(* ------------------------------------------------------------------ *)
(** ** A worked retrieval *)

Module Worked.

Local Open Scope R_scope.




(** A batch with a match.  The text ["Python expert"] holds the keyword
    ["python"], a tech skill, and its synonym ["py"], and holds the whole
    query; the other text holds nothing. *)
Lemma match_raw_scores :
  HybridSearch.raw_scores "python" [("a", "Python expert"); ("b", "java")]
  = [("a", (1 + ln (1 + 1)) * 3 + (1 + ln (1 + 1)) * 0.8 + 1 * 2);
     ("b", 0)].
Proof. cbv -[ln]. decide_reals. equal_reals. Qed.

Lemma match_scores :
  HybridSearch.bm25_score "python" [("a", "Python expert"); ("b", "java")]
  = [("a", 1); ("b", 0)].
Proof.
  rewrite LexicalFacts.bm25_score_normalised, match_raw_scores.
  assert (Hln : 0 < ln (1 + 1)).
  { rewrite <- ln_1 at 1. apply ln_increasing; lra. }
  set (ra := (1 + ln (1 + 1)) * 3 + (1 + ln (1 + 1)) * 0.8 + 1 * 2).
  assert (Hra : 2 < ra) by (subst ra; lra).
  unfold HybridSearch.max_score_of. simpl.
  rewrite (Rmax_right 0.001 ra), (Rmax_left ra 0) by lra.
  replace (ra / ra) with 1 by (field; lra).
  replace (0 / ra) with 0 by (field; lra).
  reflexivity.
Qed.

(** On an index without content both requests come back empty and the
    result is the empty list. *)
Lemma empty_index_retrieval :
  Retriever.retrieve Examples.unit_embed Examples.empty_index " zzz "
    Examples.two_years_up 10
  = {| Retriever.clean_query := "zzz";
       Retriever.candidates := [];
       Retriever.store_calls :=
         [(Some (QueryParser.where_one (QueryParser.experience_gte 2)), 20%Z);
          (None, 20%Z)] |}.
Proof. reflexivity. Qed.

End Worked.

Module CoverageFacts.

Import Aggregation.

Lemma first_appearance_complete x l : In x l -> In x (first_appearance l).
Proof.
  induction l as [|a l IH]; simpl; [easy|].
  intros [->|Hin]; [now left|].
  destruct (String.eqb x a) eqn:E.
  - apply String.eqb_eq in E. now left.
  - right. apply filter_In. split; [now apply IH|]. now rewrite E.
Qed.

Lemma cvs_of_complete (ranked : list (string * R)) item :
  In item ranked -> In (Retriever.cv_id_of (fst item)) (cvs_of ranked).
Proof.
  intros Hin. unfold cvs_of. apply first_appearance_complete.
  apply in_map_iff. now exists item.
Qed.

End CoverageFacts.

(** C2: [retrieve] returns one candidate for every CV that has a chunk in
    the fused ranking, in the order in which the CVs first appear there,
    and every candidate has, for the non-empty list [S] of the fused scores
    of its chunks, the score 0.7 x max(S) + 0.3 x mean(S); the scores
    [0.9, 0.3, 0.3] give 0.78, also when the formula is evaluated on
    binary64 numbers. *)
Theorem C2_aggregated_score :
  (forall (embedding : Type) (embed : string -> embedding)
          (store_search : embedding -> Z ->
                          option QueryParser.where_clause ->
                          list HybridSearch.hit)
          (user_query : string) (ui_filters : QueryParser.ui_filters)
          (top_k : Z),
      let ranked :=
        Retrieval.ranking_of embed store_search user_query ui_filters top_k in
      let found :=
        Retriever.candidates
          (Retriever.retrieve embed store_search user_query ui_filters
             top_k) in
      map cand_id found = Aggregation.cvs_of ranked
      /\ (forall item,
            In item ranked ->
            exists c,
              In c found /\ cand_id c = Retriever.cv_id_of (fst item))
      /\ Forall
           (fun c =>
              let S := Aggregation.segment_scores (cand_id c) ranked in
              S <> []
              /\ exists m,
                  Aggregation.is_maximum m S
                  /\ retrieval_score c
                     = Some (0.7 * m + 0.3 * Aggregation.mean S)%R)
           found)
  /\ Retriever.final_score [0.9%R; 0.3%R; 0.3%R] = 0.78%R
  /\ Binary64.final_score [0.9%float; 0.3%float; 0.3%float] = 0.78%float.
Proof.
  split; [|split].
  - intros embedding embed store_search user_query ui_filters top_k.
    cbv zeta.
    destruct (RetrieveFacts.retrieve_scored embedding embed store_search
                user_query ui_filters top_k) as [Hids Hall].
    split; [exact Hids|]. split.
    + intros item Hin. apply CoverageFacts.cvs_of_complete in Hin.
      rewrite <- Hids in Hin. apply in_map_iff in Hin.
      destruct Hin as [c [Hid Hc]]. now exists c.
    + eapply Forall_impl; [|exact Hall].
      cbv zeta. intros c [Hne [Hscore _]]. split; [exact Hne|].
      destruct (ScoreFacts.final_score_between _ Hne) as [Hmax _].
      eexists. split; [exact Hmax|].
      now rewrite Hscore, (ScoreFacts.final_score_formula _ Hne).
  - vm_compute. decide_reals. lra.
  - vm_compute. reflexivity.
Qed.





(** C5: when the parser produced a where-clause and the filtered query of
    the vector index has no hits, [retrieve] queries the index a second
    time without a filter for [max(top_k, 20)] results; its candidates are
    those of the ranking of [HybridSearch.search] called directly with no
    filter, the same query and that pool size, and those of [retrieve]
    called without filters; when the second query has no hits either, the
    result is the empty list. *)
Theorem C5_fallback_is_unfiltered_search :
  forall (embedding : Type) (embed : string -> embedding)
         (store_search : embedding -> Z ->
                         option QueryParser.where_clause ->
                         list HybridSearch.hit)
         (user_query : string) (ui_filters : QueryParser.ui_filters)
         (top_k : Z) (w : QueryParser.where_clause),
    QueryParser._build_filters ui_filters = Some w ->
    store_search (embed (PyStr.strip user_query))
      (Retriever.fetch_k_of ui_filters top_k) (Some w) = [] ->
    let r := Retriever.retrieve embed store_search user_query ui_filters top_k in
    let direct :=
      HybridSearch.search store_search (PyStr.strip user_query)
        (embed (PyStr.strip user_query)) None (Z.max top_k 20) in
    Retriever.store_calls r
    = [(Some w, Retriever.fetch_k_of ui_filters top_k);
       (None, Z.max top_k 20)]
    /\ Retriever.clean_query r = PyStr.strip user_query
    /\ Retrieval.ranking_of embed store_search user_query ui_filters top_k
       = fst direct
    /\ Retriever.candidates r
       = Retriever.candidates_of (fst direct) (snd direct)
    /\ Retriever.candidates r
       = Retriever.candidates
           (Retriever.retrieve embed store_search user_query
              QueryParser.no_filters top_k)
    /\ (store_search (embed (PyStr.strip user_query)) (Z.max top_k 20) None
        = [] ->
        Retriever.candidates r = []).
Proof.
  intros embedding embed store_search user_query ui_filters top_k w
    Hfilters Hnone r direct.
  subst r. unfold Retrieval.ranking_of.
  rewrite !RetrieveFacts.retrieve_candidates. cbv zeta.
  rewrite Hfilters.
  rewrite (RetrieveFacts.search_with_fallback_no_hits embedding embed
             store_search _ _ _ _ Hnone).
  change (QueryParser._build_filters QueryParser.no_filters)
    with (@None QueryParser.where_clause).
  rewrite RetrieveFacts.search_with_fallback_unfiltered.
  cbn [Retriever.store_calls Retriever.clean_query Retriever.candidates
       fst snd].
  fold direct. repeat split.
  intros Hempty. subst direct.
  now rewrite (RetrieveFacts.search_no_hits embedding store_search _ _ _ _
                 Hempty).
Qed.

(** C5 at a concrete input: an index on which every filtered query comes
    back empty, and a filter on the experience. *)
Lemma C5_witness :
  QueryParser._build_filters Examples.two_years_up
  = Some (QueryParser.where_one (QueryParser.experience_gte 2))
  /\ Examples.unfiltered_only (Examples.unit_embed (PyStr.strip " zzz "))
       (Retriever.fetch_k_of Examples.two_years_up 10)
       (Some (QueryParser.where_one (QueryParser.experience_gte 2))) = []
  /\ Retriever.store_calls
       (Retriever.retrieve Examples.unit_embed Examples.unfiltered_only
          " zzz " Examples.two_years_up 10)
     = [(Some (QueryParser.where_one (QueryParser.experience_gte 2)),
         Retriever.fetch_k_of Examples.two_years_up 10);
        (None, Z.max 10 20)].
Proof.
  split; [reflexivity|]. split; [reflexivity|].
  apply (C5_fallback_is_unfiltered_search unit Examples.unit_embed
           Examples.unfiltered_only " zzz " Examples.two_years_up 10
           (QueryParser.where_one (QueryParser.experience_gte 2)));
    reflexivity.
Defined.

(** C9 at the failing input.  Without a filter on the experience the parser
    produces no where-clause, the filtered search is skipped, and the only
    request that [retrieve] sends to the vector index asks for
    [max(top_k, 20)] results, whatever the language and location filters:
    with a language filter and [top_k = 10] it asks for 20 results, not for
    [max(3 x 10, 60) = 60]. *)
Theorem C9_pool_size_without_experience_filter :
  forall (embedding : Type) (embed : string -> embedding)
         (store_search : embedding -> Z ->
                         option QueryParser.where_clause ->
                         list HybridSearch.hit)
         (user_query : string),
    (forall (languages : option (list string)) (location : option string)
            (top_k : Z),
        Retriever.store_calls
          (Retriever.retrieve embed store_search user_query
             {| QueryParser.min_experience := None;
                QueryParser.max_experience := None;
                QueryParser.languages := languages;
                QueryParser.location := location |} top_k)
        = [(None, Z.max top_k 20)])
    /\ Retriever.has_sql_filters Examples.english_only = true
    /\ Retriever.fetch_k_of Examples.english_only 10 = 60%Z
    /\ Retriever.store_calls
         (Retriever.retrieve embed store_search user_query
            Examples.english_only 10)
       = [(None, 20%Z)].
Proof.
  intros embedding embed store_search user_query.
  assert (Hcalls : forall languages location top_k,
             Retriever.store_calls
               (Retriever.retrieve embed store_search user_query
                  {| QueryParser.min_experience := None;
                     QueryParser.max_experience := None;
                     QueryParser.languages := languages;
                     QueryParser.location := location |} top_k)
             = [(None, Z.max top_k 20)]).
  { intros languages location top_k.
    rewrite RetrieveFacts.retrieve_candidates. cbv zeta.
    change (QueryParser._build_filters _) with (@None QueryParser.where_clause).
    now rewrite RetrieveFacts.search_with_fallback_unfiltered. }
  split; [exact Hcalls|]. repeat split.
  apply (Hcalls (Some ["English"]) None 10%Z).
Qed.

(** With a filter on the experience the first request does ask for the
    pool size computed from the language and location filters. *)
Lemma first_request_when_filtered :
  forall (embedding : Type) (embed : string -> embedding)
         (store_search : embedding -> Z ->
                         option QueryParser.where_clause ->
                         list HybridSearch.hit)
         (user_query : string) (ui_filters : QueryParser.ui_filters)
         (top_k : Z) (w : QueryParser.where_clause),
    QueryParser._build_filters ui_filters = Some w ->
    hd_error
      (Retriever.store_calls
         (Retriever.retrieve embed store_search user_query ui_filters top_k))
    = Some (Some w, Retriever.fetch_k_of ui_filters top_k).
Proof.
  intros embedding embed store_search user_query ui_filters top_k w Hfilters.
  rewrite RetrieveFacts.retrieve_candidates. cbv zeta. rewrite Hfilters.
  unfold Retriever.search_with_fallback. cbv zeta.
  destruct (Retriever.hybrid_search _ _ _ _ _) as [[|item ranked] docs];
    reflexivity.
Qed.

(* ================================================================== *)
(** * Further properties of the code *)

(** ** Strings *)

Module StringFacts.

Import PyStr.

Lemma rev_string_involutive s : rev_string (rev_string s) = s.
Proof.
  unfold rev_string.
  now rewrite list_ascii_of_string_of_list_ascii, rev_involutive,
    string_of_list_ascii_of_string.
Qed.

(** A string that is empty or starts with a character that is not white
    space. *)
Lemma lstrip_clean s :
  match lstrip s with
  | EmptyString => True
  | String c _ => isspace c = false
  end.
Proof.
  induction s as [|c s IH]; simpl; [exact I|].
  destruct (isspace c) eqn:E; [exact IH|exact E].
Qed.

Lemma lstrip_fixed c s : isspace c = false -> lstrip (String c s) = String c s.
Proof. intros E. simpl. now rewrite E. Qed.

Lemma lstrip_idempotent s : lstrip (lstrip s) = lstrip s.
Proof.
  pose proof (lstrip_clean s) as H. destruct (lstrip s) as [|c t]; [reflexivity|].
  now apply lstrip_fixed.
Qed.

Lemma rstrip_idempotent s : rstrip (rstrip s) = rstrip s.
Proof.
  unfold rstrip. now rewrite rev_string_involutive, lstrip_idempotent.
Qed.

(** Stripping on the left keeps a last character that is not white space. *)
Lemma lstrip_keeps_last c l :
  isspace c = false ->
  exists l', lstrip (string_of_list_ascii (l ++ [c]))
             = string_of_list_ascii (l' ++ [c]).
Proof.
  intros E. induction l as [|a l IH]; simpl.
  - exists []. simpl. now rewrite E.
  - destruct (isspace a); [exact IH|]. now exists (a :: l).
Qed.

(** Stripping on the right keeps a first character that is not white
    space. *)
Lemma rstrip_keeps_first c s :
  isspace c = false -> exists t, rstrip (String c s) = String c t.
Proof.
  intros E. unfold rstrip, rev_string. simpl list_ascii_of_string.
  simpl rev.
  destruct (lstrip_keeps_last c (rev (list_ascii_of_string s)) E) as [l' ->].
  rewrite list_ascii_of_string_of_list_ascii, rev_app_distr. simpl.
  now eexists.
Qed.

Lemma strip_idempotent s : strip (strip s) = strip s.
Proof.
  unfold strip.
  pose proof (lstrip_clean s) as H.
  destruct (lstrip s) as [|c t] eqn:El; [reflexivity|].
  destruct (rstrip_keeps_first c t H) as [t' Ht]. rewrite Ht.
  rewrite (lstrip_fixed c t' H), <- Ht. apply rstrip_idempotent.
Qed.

(** A string that starts with a character that is not white space does
    not strip to the empty string. *)
Lemma strip_nonempty c s : isspace c = false -> strip (String c s) <> "".
Proof.
  intros E. unfold strip. rewrite (lstrip_fixed c s E).
  destruct (rstrip_keeps_first c s E) as [t ->]. discriminate.
Qed.

Lemma append_cancel_l u s t : u ++ s = u ++ t -> s = t.
Proof.
  induction u as [|c u IH]; simpl; intros H; [exact H|].
  injection H as H. now apply IH.
Qed.

(** [s.split(sep)[0]] gives back what stands before the first separator. *)
Lemma before_first_append sep u s :
  ~ In sep (list_ascii_of_string u) ->
  before_first sep (u ++ String sep s) = u.
Proof.
  induction u as [|c u IH]; simpl; intros Hnot.
  - now rewrite Ascii.eqb_refl.
  - destruct (Ascii.eqb c sep) eqn:E.
    + apply Ascii.eqb_eq in E. exfalso. apply Hnot. now left.
    + f_equal. apply IH. intros Hin. apply Hnot. now right.
Qed.

Lemma to_uint_nonnil n : Nat.to_uint n <> Decimal.Nil.
Proof.
  rewrite <- (DecimalNat.Unsigned.of_to n) at 1.
  rewrite DecimalNat.Unsigned.to_of. apply DecimalFacts.unorm_nonnil.
Qed.

(** The decimal rendering of an index determines the index. *)
Lemma of_nat_injective n m : of_nat n = of_nat m -> n = m.
Proof.
  unfold of_nat. intros H.
  apply DecimalNat.Unsigned.to_uint_inj.
  pose proof (NilZero.usu _ (to_uint_nonnil n)) as Hn.
  pose proof (NilZero.usu _ (to_uint_nonnil m)) as Hm.
  rewrite H in Hn. rewrite Hn in Hm. now injection Hm.
Qed.

End StringFacts.

(* ------------------------------------------------------------------ *)
(** ** The query parser *)

(** The where-clause sent to the vector index depends on the experience
    bounds alone: language and location filters are never pushed down.
    There is no clause without a bound, one condition for one bound, and the
    conjunction of the lower and the upper bound, in this order, for two. *)
Lemma build_filters_experience_only :
  forall (f : QueryParser.ui_filters),
    QueryParser._build_filters f
    = QueryParser._build_filters
        {| QueryParser.min_experience := QueryParser.min_experience f;
           QueryParser.max_experience := QueryParser.max_experience f;
           QueryParser.languages := None;
           QueryParser.location := None |}
    /\ QueryParser._build_filters f
       = match QueryParser.min_experience f, QueryParser.max_experience f with
         | None, None => None
         | Some lo, None =>
             Some (QueryParser.where_one (QueryParser.experience_gte lo))
         | None, Some hi =>
             Some (QueryParser.where_one (QueryParser.experience_lte hi))
         | Some lo, Some hi =>
             Some (QueryParser.where_and
                     [QueryParser.experience_gte lo;
                      QueryParser.experience_lte hi])
         end.
Proof.
  intros [[lo|] [hi|] languages location]; split; reflexivity.
Qed.

(** X2: parsing is idempotent on the query: the cleaned query of a cleaned
    query is the cleaned query, with the same where-clause. *)
Theorem X2_parse_idempotent :
  forall (query : string) (f : QueryParser.ui_filters),
    QueryParser.parse (fst (QueryParser.parse query f)) f
    = QueryParser.parse query f.
Proof.
  intros query f. unfold QueryParser.parse. simpl.
  now rewrite StringFacts.strip_idempotent.
Qed.

(* ------------------------------------------------------------------ *)
(** ** The requests of the retriever *)

(** X3: [retrieve] queries the vector index once or twice: the filtered
    request, when the parser produced a where-clause, comes first and an
    unfiltered request can only be the last; every request asks for at
    least [max(top_k, 20)] results, so for at least 20 and at least
    [top_k]. *)
Theorem X3_retrieve_requests :
  forall (embedding : Type) (embed : string -> embedding)
         (store_search : embedding -> Z ->
                         option QueryParser.where_clause ->
                         list HybridSearch.hit)
         (user_query : string) (ui_filters : QueryParser.ui_filters)
         (top_k : Z),
    let calls :=
      Retriever.store_calls
        (Retriever.retrieve embed store_search user_query ui_filters top_k) in
    let filtered :=
      (QueryParser._build_filters ui_filters,
       Retriever.fetch_k_of ui_filters top_k) in
    let unfiltered := (@None QueryParser.where_clause, Z.max top_k 20) in
    (calls = [unfiltered] /\ QueryParser._build_filters ui_filters = None
     \/ (calls = [filtered] \/ calls = [filtered; unfiltered])
        /\ QueryParser._build_filters ui_filters <> None)
    /\ Forall (fun call => (Z.max top_k 20 <= snd call)%Z
                           /\ (20 <= snd call)%Z /\ (top_k <= snd call)%Z)
         calls.
Proof.
  intros embedding embed store_search user_query ui_filters top_k.
  cbv zeta. rewrite RetrieveFacts.retrieve_candidates. cbv zeta.
  cbn [Retriever.store_calls].
  assert (Hfetch : (Z.max top_k 20 <= Retriever.fetch_k_of ui_filters top_k)%Z).
  { unfold Retriever.fetch_k_of.
    destruct (Retriever.has_sql_filters ui_filters); lia. }
  destruct (QueryParser._build_filters ui_filters) as [w|] eqn:Hw.
  - unfold Retriever.search_with_fallback. cbv zeta.
    destruct (Retriever.hybrid_search _ _ _ _ _) as [[|item ranked] docs];
      cbn [snd app].
    + split; [right; split; [now right|discriminate]|].
      repeat constructor; simpl; lia.
    + split; [right; split; [now left|discriminate]|].
      repeat constructor; simpl; lia.
  - rewrite RetrieveFacts.search_with_fallback_unfiltered. cbn [snd].
    split; [now left|]. repeat constructor; simpl; lia.
Qed.

(* ------------------------------------------------------------------ *)
(** ** The lexical scorer, further *)

Module LexicalMore.

Import PyStr HybridSearch.
Local Open Scope R_scope.

Lemma keywords_of_lower query query' :
  lower query = lower query' -> keywords_of query = keywords_of query'.
Proof. intros H. unfold keywords_of. now rewrite H. Qed.

Lemma raw_score_lower query query' keywords expanded text text' :
  lower query = lower query' -> lower text = lower text' ->
  raw_score query keywords expanded text
  = raw_score query' keywords expanded text'.
Proof.
  intros Hq Ht. unfold raw_score, _get_title_boost. cbv zeta.
  now rewrite Hq, Ht.
Qed.

Lemma raw_scores_lower query query' documents documents' :
  lower query = lower query' ->
  Forall2 (fun d d' => fst d = fst d' /\ lower (snd d) = lower (snd d'))
    documents documents' ->
  raw_scores query documents = raw_scores query' documents'.
Proof.
  intros Hq Hdocs. unfold raw_scores.
  rewrite (keywords_of_lower query query' Hq).
  induction Hdocs as [|[i t] [i' t'] l l' [Hid Ht] _ IH]; simpl;
    [reflexivity|].
  simpl in Hid, Ht. subst i'. rewrite IH.
  now rewrite (raw_score_lower query query' _ _ t t' Hq Ht).
Qed.

(** What one keyword adds to a score: nothing when it does not occur in the
    text, at least 0.8 when it does. *)
Lemma keyword_score_absent keywords text_lower word :
  count text_lower word = 0%nat ->
  keyword_score keywords text_lower 0 word = 0.
Proof. intros H. unfold keyword_score. now rewrite H. Qed.

Lemma keyword_score_present keywords text_lower word :
  count text_lower word <> 0%nat ->
  0.8 <= keyword_score keywords text_lower 0 word.
Proof.
  intros H.
  destruct (LexicalFacts.keyword_score_step keywords text_lower 0 word)
    as [Heq|Hstep]; [|lra].
  exfalso. unfold keyword_score in Heq.
  destruct (Nat.ltb_spec 0 (count text_lower word)) as [Hpos|Hle]; [|lia].
  assert (Hln : 0 < ln (1 + INR (count text_lower word))).
  { rewrite <- ln_1 at 1. apply ln_increasing; [lra|].
    pose proof (lt_0_INR _ Hpos). lra. }
  destruct (mem word TECH_SKILLS), (negb (mem word keywords)); lra.
Qed.

Lemma keyword_scores_nonneg keywords text_lower words :
  0 <= fold_right Rplus 0 (map (keyword_score keywords text_lower 0) words).
Proof.
  induction words as [|w words IH]; simpl; [lra|].
  destruct (Nat.eq_dec (count text_lower w) 0) as [H0|Hpos].
  - rewrite (keyword_score_absent _ _ _ H0). lra.
  - pose proof (keyword_score_present keywords _ _ Hpos). lra.
Qed.

Lemma keyword_scores_zero keywords text_lower words :
  fold_left (keyword_score keywords text_lower) words 0 = 0
  <-> Forall (fun w => count text_lower w = 0%nat) words.
Proof.
  rewrite LexicalFacts.keyword_scores_sum.
  induction words as [|w words IH]; simpl.
  - split; [constructor|intros; lra].
  - pose proof (keyword_scores_nonneg keywords text_lower words) as Hrest.
    destruct (Nat.eq_dec (count text_lower w) 0) as [H0|Hpos].
    + rewrite (keyword_score_absent _ _ _ H0). split.
      * intros Hsum. constructor; [assumption|]. apply IH. lra.
      * intros Hall. inversion Hall; subst.
        assert (0 + fold_right Rplus 0
                      (map (keyword_score keywords text_lower 0) words) = 0)
          by now apply IH.
        lra.
    + pose proof (keyword_score_present keywords _ _ Hpos). split.
      * intros Hsum. exfalso. lra.
      * intros Hall. inversion Hall; subst. contradiction.
Qed.

End LexicalMore.

(** X4: the lexical scorer and the query classifier ignore case: two
    queries that agree once lower-cased, on texts that agree once
    lower-cased, are classified alike and give the same scores. *)
Theorem X4_scoring_ignores_case :
  forall (query query' : string) (documents documents' : Dict.t string),
    PyStr.lower query = PyStr.lower query' ->
    Forall2
      (fun d d' => fst d = fst d' /\ PyStr.lower (snd d) = PyStr.lower (snd d'))
      documents documents' ->
    HybridSearch._is_skill_query query = HybridSearch._is_skill_query query'
    /\ HybridSearch.keywords_of query = HybridSearch.keywords_of query'
    /\ HybridSearch.bm25_score query documents
       = HybridSearch.bm25_score query' documents'.
Proof.
  intros query query' documents documents' Hq Hdocs.
  split; [unfold HybridSearch._is_skill_query; now rewrite Hq|].
  split; [now apply LexicalMore.keywords_of_lower|].
  unfold HybridSearch.bm25_score.
  now rewrite (LexicalMore.raw_scores_lower query query' documents documents'
                 Hq Hdocs).
Qed.

(** X4 at a concrete input. *)
Lemma X4_witness :
  PyStr.lower "Python DEVELOPER" = PyStr.lower "python developer"
  /\ HybridSearch.bm25_score "Python DEVELOPER" [("a", "Senior PYTHON Dev")]
     = HybridSearch.bm25_score "python developer" [("a", "senior python dev")].
Proof.
  split; [reflexivity|].
  apply (X4_scoring_ignores_case "Python DEVELOPER" "python developer"
           [("a", "Senior PYTHON Dev")] [("a", "senior python dev")]).
  - reflexivity.
  - repeat constructor.
Defined.

(** X6: the keywords of a query are words of the lower-cased query of at
    least two characters.  Unless every word of the query is a stop word or
    a single character, none of them is a stop word; in that case they are
    the words of three characters or more. *)
Theorem X6_keywords_of_query :
  forall (query : string),
    let words := PyStr.findall_word (PyStr.lower query) in
    let keywords := HybridSearch.keywords_of query in
    Forall (fun w => In w words /\ (2 <= String.length w)%nat) keywords
    /\ (Forall (fun w => PyStr.mem w HybridSearch.STOP_WORDS = false) keywords
        \/ Forall (fun w => PyStr.mem w HybridSearch.STOP_WORDS = true
                            \/ (String.length w < 2)%nat) words
           /\ keywords = filter (fun w => (3 <=? String.length w)%nat) words).
Proof.
  intros query words keywords. subst keywords.
  unfold HybridSearch.keywords_of. fold words.
  set (main := filter
                 (fun w => negb (PyStr.mem w HybridSearch.STOP_WORDS)
                           && (2 <=? String.length w)%nat) words).
  assert (Hmain_in : forall w, In w main ->
             In w words
             /\ PyStr.mem w HybridSearch.STOP_WORDS = false
             /\ (2 <= String.length w)%nat).
  { intros w Hw. apply filter_In in Hw. destruct Hw as [Hin Hp].
    apply andb_prop in Hp. destruct Hp as [Hstop Hlen].
    apply negb_true_iff in Hstop. apply Nat.leb_le in Hlen. auto. }
  assert (Hmain_all : forall w, In w words ->
             PyStr.mem w HybridSearch.STOP_WORDS = false ->
             (2 <= String.length w)%nat -> In w main).
  { intros w Hin Hstop Hlen. apply filter_In. split; [assumption|].
    rewrite Hstop. apply Nat.leb_le in Hlen. now rewrite Hlen. }
  clearbody main.
  destruct main as [|k ks].
  - split.
    + apply Forall_forall. intros w Hw. apply filter_In in Hw.
      destruct Hw as [Hin Hlen]. apply Nat.leb_le in Hlen. split; [assumption|lia].
    + right. split; [|reflexivity].
      apply Forall_forall. intros w Hw.
      destruct (PyStr.mem w HybridSearch.STOP_WORDS) eqn:Estop; [now left|].
      right. destruct (Nat.leb_spec 2 (String.length w)) as [Hle|Hlt]; [|lia].
      exfalso. apply (Hmain_all w Hw Estop Hle).
  - split.
    + apply Forall_forall. intros w Hw. now apply Hmain_in in Hw.
    + left. apply Forall_forall. intros w Hw. now apply Hmain_in in Hw.
Qed.

(** X7: the title boost is a factor between 1 and 1.5, whatever the query
    and the text. *)
Theorem X7_title_boost_range :
  forall (query text : string),
    (1 <= HybridSearch._get_title_boost query text <= 1.5)%R.
Proof. intros query text. apply LexicalFacts.title_boost_range. Qed.

(** X8: a text gets the raw score 0 exactly when no expanded keyword occurs
    in it and it earns no phrase bonus (it does not hold the query, or the
    query has no keyword); any other text gets at least 0.8. *)
Theorem X8_raw_score_zero :
  forall (query : string) (keywords expanded : list string) (text : string),
    (HybridSearch.raw_score query keywords expanded text = 0%R
     <-> Forall (fun w => PyStr.count (PyStr.lower text) w = 0%nat) expanded
         /\ (PyStr.contains (PyStr.lower query) (PyStr.lower text) = false
             \/ keywords = []))
    /\ (HybridSearch.raw_score query keywords expanded text = 0
        \/ 0.8 <= HybridSearch.raw_score query keywords expanded text)%R.
Proof.
  intros query keywords expanded text.
  split; [|apply LexicalFacts.raw_score_zero_or_large].
  unfold HybridSearch.raw_score. cbv zeta.
  pose proof (LexicalFacts.title_boost_range query text) as Hboost.
  set (boost := HybridSearch._get_title_boost query text) in *.
  pose proof (LexicalMore.keyword_scores_zero keywords (PyStr.lower text)
                expanded) as Hzero.
  pose proof (LexicalMore.keyword_scores_nonneg keywords (PyStr.lower text)
                expanded) as Hnonneg.
  rewrite <- (Rplus_0_l (fold_right _ _ _)) in Hnonneg.
  rewrite <- LexicalFacts.keyword_scores_sum in Hnonneg.
  set (s := fold_left _ expanded 0%R) in *.
  pose proof (pos_INR (length keywords)) as Hlen.
  destruct (PyStr.contains _ _).
  - split.
    + intros Hraw.
      assert (Hs : (s + INR (length keywords) * 2 = 0)%R) by nra.
      split; [apply Hzero; lra|]. right.
      destruct keywords as [|k ks]; [reflexivity|].
      exfalso. change (length (k :: ks)) with (S (length ks)) in Hs, Hlen.
      rewrite S_INR in Hs. pose proof (pos_INR (length ks)). lra.
    + intros [Hall [Hc|Hk]]; [discriminate|]. subst keywords. simpl.
      apply Hzero in Hall. rewrite Hall. lra.
  - split.
    + intros Hraw. split; [apply Hzero; nra|now left].
    + intros [Hall _]. apply Hzero in Hall. rewrite Hall. lra.
Qed.

(* ------------------------------------------------------------------ *)
(** ** The hybrid search, further *)

Module SearchFacts.

Import PyStr HybridSearch Aggregation.
Local Open Scope R_scope.

Lemma mem_true_In w S : mem w S = true <-> In w S.
Proof.
  unfold mem. rewrite existsb_exists. split.
  - intros [x [Hx Heq]]. apply String.eqb_eq in Heq. now subst.
  - intros Hw. exists w. split; [assumption|apply String.eqb_refl].
Qed.

Lemma first_appearance_In x l : In x (first_appearance l) <-> In x l.
Proof.
  induction l as [|a l IH]; simpl; [reflexivity|].
  rewrite filter_In, IH. split.
  - intros [H|[H _]]; auto.
  - intros [H|H]; [now left|].
    destruct (String.eqb x a) eqn:E.
    + apply String.eqb_eq in E. now left.
    + right. split; [assumption|reflexivity].
Qed.

Lemma first_appearance_length l :
  (length (first_appearance l) <= length l)%nat.
Proof.
  induction l as [|a l IH]; simpl; [lia|].
  pose proof (filter_length_le (fun y => negb (String.eqb y a))
                (first_appearance l)).
  lia.
Qed.

Lemma get_Some_In {V} (d : Dict.t V) k v : Dict.get d k = Some v -> In (k, v) d.
Proof.
  induction d as [|[k' v'] d IH]; simpl; [discriminate|].
  destruct (String.eqb k k') eqn:E.
  - apply String.eqb_eq in E. intros H. injection H as ->. subst. now left.
  - intros H. right. now apply IH.
Qed.

Lemma get_defined {V} (d : Dict.t V) k :
  Dict.get d k <> None <-> In k (Dict.keys d).
Proof.
  induction d as [|[k' v'] d IH]; simpl.
  - split; [congruence|contradiction].
  - destruct (String.eqb k k') eqn:E.
    + apply String.eqb_eq in E. subst. split; [now left|discriminate].
    + rewrite IH. apply String.eqb_neq in E. split; [now right|].
      intros [H|H]; [congruence|assumption].
Qed.

Lemma set_In {V} (d : Dict.t V) k v kv :
  In kv (Dict.set d k v) -> kv = (k, v) \/ In kv d.
Proof.
  induction d as [|[k' v'] d IH]; simpl.
  - intros [H|H]; [now left|contradiction].
  - destruct (String.eqb k k'); simpl.
    + intros [H|H]; [now left|now right; right].
    + intros [H|H]; [now right; left|].
      destruct (IH H); [now left|now right; right].
Qed.

Section Filled.

Variable V : Type.
Variable value : hit -> V.

Lemma filled_from_keys hits : forall d done,
  Dict.keys d = first_appearance done ->
  Dict.keys (Further.filled_from value hits d)
  = first_appearance (done ++ map hit_id hits).
Proof.
  induction hits as [|h hits IH]; intros d done Hd; simpl.
  - now rewrite app_nil_r.
  - replace (done ++ hit_id h :: map hit_id hits)%list
      with ((done ++ [hit_id h]) ++ map hit_id hits)%list
      by now rewrite <- app_assoc.
    apply IH. rewrite DictFacts.keys_set, Hd.
    now rewrite GroupFacts.first_appearance_snoc.
Qed.

Lemma filled_from_values (P : V -> Prop) hits : forall d,
  Forall (fun h => P (value h)) hits ->
  Forall (fun kv => P (snd kv)) d ->
  Forall (fun kv => P (snd kv)) (Further.filled_from value hits d).
Proof.
  induction hits as [|h hits IH]; intros d Hhits Hd; simpl; [assumption|].
  inversion Hhits as [|? ? Hh Hrest]; subst.
  apply IH; [assumption|].
  apply Forall_forall. intros kv Hkv.
  destruct (set_In _ _ _ _ Hkv) as [->|Hin]; [exact Hh|].
  rewrite Forall_forall in Hd. now apply Hd.
Qed.

End Filled.

Lemma docs_of_keys hits :
  Dict.keys (docs_of hits) = first_appearance (map hit_id hits).
Proof. apply (filled_from_keys _ hit_document hits [] []). reflexivity. Qed.

Lemma vector_scores_of_keys hits :
  Dict.keys (vector_scores_of hits) = first_appearance (map hit_id hits).
Proof.
  apply (filled_from_keys _ (fun h => 1 / (1 + hit_distance h)) hits [] []).
  reflexivity.
Qed.

Lemma vector_scores_unit hits :
  Forall (fun h => 0 <= hit_distance h) hits ->
  Forall (fun kv => 0 < snd kv <= 1) (vector_scores_of hits).
Proof.
  intros Hd.
  apply (filled_from_values _ (fun h => 1 / (1 + hit_distance h))
           (fun v => 0 < v <= 1) hits []); [|constructor].
  eapply Forall_impl; [|exact Hd]. simpl. intros h Hh.
  assert (Hpos : 0 < 1 + hit_distance h) by lra.
  split.
  - apply Rdiv_lt_0_compat; lra.
  - apply Rmult_le_reg_r with (1 + hit_distance h); [assumption|].
    unfold Rdiv. rewrite Rmult_assoc, Rinv_l by lra. lra.
Qed.

Lemma bm25_score_unit query documents :
  Forall (fun kv => 0 <= snd kv <= 1) (bm25_score query documents).
Proof.
  rewrite LexicalFacts.bm25_score_normalised.
  set (raw := raw_scores query documents).
  pose proof (LexicalFacts.max_score_is_maximum raw) as [_ Hall].
  pose proof (LexicalFacts.max_score_positive raw) as Hpos.
  pose proof (LexicalFacts.raw_scores_zero_or_large query documents) as Hraw.
  fold raw in Hraw.
  inversion Hall as [|? ? _ Hle]; subst.
  rewrite Forall_map in Hle. rewrite Forall_forall in Hle, Hraw.
  apply Forall_map, Forall_forall. intros [doc_id r] Hitem. simpl.
  specialize (Hle _ Hitem). specialize (Hraw _ Hitem). simpl in Hle, Hraw.
  assert (H0 : 0 <= r) by (destruct Hraw; lra).
  split.
  - apply Rmult_le_pos; [assumption|].
    apply Rlt_le, Rinv_0_lt_compat. lra.
  - apply Rmult_le_reg_r with (max_score_of raw); [lra|].
    unfold Rdiv. rewrite Rmult_assoc, Rinv_l by lra. lra.
Qed.

Lemma get_default_in {V} (P : V -> Prop) (d : Dict.t V) k dflt :
  Forall (fun kv => P (snd kv)) d -> P dflt -> P (Dict.get_default d k dflt).
Proof.
  intros Hd Hdflt. unfold Dict.get_default.
  destruct (Dict.get d k) as [v|] eqn:E; [|assumption].
  apply get_Some_In in E. rewrite Forall_forall in Hd. now apply (Hd _ E).
Qed.

Lemma fused_score_unit query hits doc_id :
  Forall (fun h => 0 <= hit_distance h) hits ->
  0 <= Classification.fused_score query hits doc_id <= 1.
Proof.
  intros Hd. unfold Classification.fused_score. cbv zeta.
  assert (Hv : 0 <= Dict.get_default (vector_scores_of hits) doc_id 0 <= 1).
  { apply (get_default_in (fun v => 0 <= v <= 1)); [|lra].
    eapply Forall_impl; [|apply (vector_scores_unit hits Hd)].
    simpl. intros; lra. }
  assert (Hl : 0 <= Dict.get_default (bm25_score query (docs_of hits)) doc_id 0
               <= 1).
  { apply (get_default_in (fun v => 0 <= v <= 1)); [|lra].
    apply bm25_score_unit. }
  destruct (_is_skill_query query); lra.
Qed.

Section WithStore.

Variable embedding : Type.
Variable store_search :
  embedding -> Z -> option QueryParser.where_clause -> list hit.

Lemma search_docs query qv filters k :
  snd (search store_search query qv filters k)
  = docs_of (store_search qv k filters).
Proof.
  unfold search. now destruct (store_search qv k filters).
Qed.

Lemma search_ranked_ids query qv filters k :
  Permutation (map fst (fst (search store_search query qv filters k)))
    (Dict.keys (docs_of (store_search qv k filters))).
Proof.
  rewrite ClassificationFacts.search_ranked.
  rewrite <- (sorted_desc_perm snd). rewrite map_map. simpl.
  now rewrite map_id.
Qed.

Lemma search_ranked_unit query qv filters k :
  Forall (fun h => 0 <= hit_distance h) (store_search qv k filters) ->
  Forall (fun item => 0 <= snd item <= 1)
    (fst (search store_search query qv filters k)).
Proof.
  intros Hd. rewrite ClassificationFacts.search_ranked.
  eapply Permutation_Forall; [apply sorted_desc_perm|].
  apply Forall_map, Forall_forall. intros doc_id _. simpl.
  now apply fused_score_unit.
Qed.

End WithStore.

End SearchFacts.

(** X10: the ranking of [search] holds every retrieved chunk id exactly
    once, also when the index answers with an id twice, in descending order
    of merged score; [docs] keeps the ids in the order of their first
    appearance in the answer; and every ranked id has a text in [docs], a
    vector score and a keyword score, so that no default is taken when the
    scores are merged and the lookup [docs[doc_id]] of the retriever cannot
    fail.  An empty answer gives an empty ranking. *)
Theorem X10_search_ranking :
  forall (embedding : Type)
         (store_search : embedding -> Z ->
                         option QueryParser.where_clause ->
                         list HybridSearch.hit)
         (query : string) (qv : embedding)
         (filters : option QueryParser.where_clause) (k : Z),
    let hits := store_search qv k filters in
    let ranked :=
      fst (HybridSearch.search store_search query qv filters k) in
    let docs := snd (HybridSearch.search store_search query qv filters k) in
    Dict.keys docs
    = Aggregation.first_appearance (map HybridSearch.hit_id hits)
    /\ Permutation (map fst ranked) (Dict.keys docs)
    /\ NoDup (map fst ranked)
    /\ descending snd ranked
    /\ Forall
         (fun doc_id =>
            In doc_id (map HybridSearch.hit_id hits)
            /\ Dict.get docs doc_id <> None
            /\ Dict.get (HybridSearch.vector_scores_of hits) doc_id <> None
            /\ Dict.get (HybridSearch.bm25_score query docs) doc_id <> None)
         (map fst ranked).
Proof.
  intros embedding store_search query qv filters k hits ranked docs.
  assert (Hdocs : docs = HybridSearch.docs_of hits)
    by apply SearchFacts.search_docs.
  assert (Hkeys : Dict.keys docs
                  = Aggregation.first_appearance
                      (map HybridSearch.hit_id hits)).
  { rewrite Hdocs. apply SearchFacts.docs_of_keys. }
  assert (Hperm : Permutation (map fst ranked) (Dict.keys docs)).
  { rewrite Hdocs. apply SearchFacts.search_ranked_ids. }
  split; [exact Hkeys|]. split; [exact Hperm|].
  split.
  { eapply Permutation_NoDup; [symmetry; exact Hperm|].
    rewrite Hkeys. apply GroupFacts.first_appearance_NoDup. }
  split.
  { subst ranked. rewrite ClassificationFacts.search_ranked.
    apply sorted_desc_descending. }
  apply Forall_forall. intros doc_id Hin.
  assert (Hk : In doc_id (Dict.keys docs))
    by (eapply Permutation_in; [exact Hperm|exact Hin]).
  split; [rewrite Hkeys in Hk; now apply SearchFacts.first_appearance_In|].
  split; [now apply SearchFacts.get_defined|].
  split.
  - apply SearchFacts.get_defined.
    rewrite SearchFacts.vector_scores_of_keys, <- Hkeys. exact Hk.
  - apply SearchFacts.get_defined.
    now rewrite LexicalFacts.bm25_score_keys.
Qed.

(** X11: when the distances that the index reports are not negative, every
    merged score in the ranking of [search] lies in [0,1]. *)
Theorem X11_merged_scores_in_unit_interval :
  forall (embedding : Type)
         (store_search : embedding -> Z ->
                         option QueryParser.where_clause ->
                         list HybridSearch.hit)
         (query : string) (qv : embedding)
         (filters : option QueryParser.where_clause) (k : Z),
    Forall (fun h => (0 <= HybridSearch.hit_distance h)%R)
      (store_search qv k filters) ->
    Forall (fun item => (0 <= snd item <= 1)%R)
      (fst (HybridSearch.search store_search query qv filters k)).
Proof.
  intros embedding store_search query qv filters k Hd.
  now apply SearchFacts.search_ranked_unit.
Qed.

(** X11 at a concrete input: the small index. *)
Lemma X11_witness :
  Forall (fun h => (0 <= HybridSearch.hit_distance h)%R)
    (Examples.small_index tt 20 None)
  /\ Forall (fun item => (0 <= snd item <= 1)%R)
       (fst (HybridSearch.search Examples.small_index "zzz" tt None 20)).
Proof.
  assert (Hd : Forall (fun h => (0 <= HybridSearch.hit_distance h)%R)
                 (Examples.small_index tt 20 None)).
  { unfold Examples.small_index, Examples.three_hits.
    repeat constructor; simpl; lra. }
  split; [exact Hd|].
  exact (X11_merged_scores_in_unit_interval unit Examples.small_index "zzz"
           tt None 20%Z Hd).
Defined.

(* ------------------------------------------------------------------ *)
(** ** The retriever, further *)

Module RetrieveMore.

Import PyStr Retriever Aggregation Retrieval Further.
Local Open Scope R_scope.

Lemma segment_texts_app cv_id l1 l2 docs :
  segment_texts cv_id (l1 ++ l2) docs
  = (segment_texts cv_id l1 docs ++ segment_texts cv_id l2 docs)%list.
Proof. unfold segment_texts. now rewrite filter_app, map_app. Qed.

Lemma add_chunk_texts docs results done item :
  grouped_texts docs results done ->
  grouped_texts docs (add_chunk docs results item) (done ++ [item]).
Proof.
  intros Hget. destruct item as [doc_id s]. unfold add_chunk.
  set (cv0 := cv_id_of doc_id).
  set (results1 := if Dict.contains results cv0 then results
                   else Dict.set results cv0 new_entry).
  set (e0 := Dict.get_default results1 cv0 new_entry).
  assert (He0 : chunks e0 = segment_texts cv0 done docs).
  { subst e0 results1. unfold Dict.get_default, Dict.contains.
    specialize (Hget cv0).
    destruct (Dict.get results cv0) as [e|] eqn:Eget.
    - now rewrite Eget.
    - rewrite DictFacts.get_set_same. now rewrite Hget. }
  intros cv_id. rewrite segment_texts_app.
  assert (Hone : segment_texts cv_id [(doc_id, s)] docs
                 = if String.eqb cv0 cv_id
                   then [Dict.get_default docs doc_id ""] else []).
  { unfold segment_texts. simpl. fold cv0.
    now destruct (String.eqb cv0 cv_id). }
  rewrite Hone. clear Hone.
  destruct (String.eqb cv0 cv_id) eqn:Ecv.
  - apply String.eqb_eq in Ecv. subst cv_id.
    rewrite DictFacts.get_set_same. simpl. now rewrite He0.
  - apply String.eqb_neq in Ecv.
    rewrite DictFacts.get_set_other by congruence.
    rewrite app_nil_r.
    replace (Dict.get results1 cv_id) with (Dict.get results cv_id);
      [apply Hget|].
    subst results1. destruct (Dict.contains results cv0); [reflexivity|].
    now rewrite DictFacts.get_set_other by congruence.
Qed.

Lemma fold_add_chunk_texts docs l results done :
  grouped_texts docs results done ->
  grouped_texts docs (fold_left (add_chunk docs) l results) (done ++ l).
Proof.
  revert results done. induction l as [|item l IH]; intros results done Hg.
  - simpl. now rewrite app_nil_r.
  - simpl. replace (done ++ item :: l)%list with ((done ++ [item]) ++ l)%list
      by now rewrite <- app_assoc.
    apply IH. now apply add_chunk_texts.
Qed.

Lemma group_by_cv_texts ranked docs :
  grouped_texts docs (group_by_cv ranked docs) ranked.
Proof.
  apply (fold_add_chunk_texts docs ranked [] []). intros cv_id. reflexivity.
Qed.

Lemma candidates_of_texts ranked docs :
  Forall
    (fun c =>
       cand_text c
       = join " " (firstn 3 (segment_texts (cand_id c) ranked docs)))
    (candidates_of ranked docs).
Proof.
  destruct (GroupFacts.group_by_cv_grouped ranked docs) as [Hkeys _].
  pose proof (group_by_cv_texts ranked docs) as Htexts.
  unfold candidates_of. rewrite map_map. apply Forall_map, Forall_forall.
  intros [cv_id e] Hin. simpl.
  assert (Hnd : NoDup (Dict.keys (group_by_cv ranked docs))).
  { rewrite Hkeys. apply GroupFacts.first_appearance_NoDup. }
  specialize (Htexts cv_id).
  rewrite (DictFacts.get_In _ _ _ Hnd Hin) in Htexts. now rewrite Htexts.
Qed.

Section WithEngine.

Variable embedding : Type.
Variable embed : string -> embedding.
Variable store_search :
  embedding -> Z -> option QueryParser.where_clause -> list HybridSearch.hit.

(** What [retrieve] groups is the result of one call of [search]. *)
Lemma fallback_is_a_search clean filters ui_filters top_k :
  exists w k,
    fst (search_with_fallback embed store_search clean filters ui_filters top_k)
    = HybridSearch.search store_search clean (embed clean) w k.
Proof.
  unfold search_with_fallback, hybrid_search. cbv zeta.
  destruct filters as [w|].
  - destruct (HybridSearch.search store_search clean (embed clean) (Some w) _)
      as [[|item ranked] docs] eqn:E.
    + now eexists _, _.
    + exists (Some w), (fetch_k_of ui_filters top_k). now rewrite E.
  - now eexists _, _.
Qed.

Lemma cvs_of_In cv_id ranked :
  In cv_id (cvs_of ranked)
  <-> exists item, In item ranked /\ cv_id_of (fst item) = cv_id.
Proof.
  unfold cvs_of. rewrite SearchFacts.first_appearance_In, in_map_iff.
  split; intros [item [H1 H2]]; exists item; auto.
Qed.

Lemma segment_scores_incl cv_id ranked :
  incl (segment_scores cv_id ranked) (map snd ranked).
Proof.
  unfold segment_scores. intros s Hs. apply in_map_iff in Hs.
  destruct Hs as [item [<- Hin]]. apply filter_In in Hin.
  apply in_map. apply Hin.
Qed.

End WithEngine.

End RetrieveMore.

(** X12: [retrieve] returns exactly one candidate for every CV that has a
    chunk in the fused ranking and none for any other: the ids of the
    candidates are distinct, there are at most as many candidates as ranked
    chunks, and the list is empty exactly when the ranking is. *)
Theorem X12_one_candidate_per_cv :
  forall (embedding : Type) (embed : string -> embedding)
         (store_search : embedding -> Z ->
                         option QueryParser.where_clause ->
                         list HybridSearch.hit)
         (user_query : string) (ui_filters : QueryParser.ui_filters)
         (top_k : Z),
    let ranked :=
      Retrieval.ranking_of embed store_search user_query ui_filters top_k in
    let found :=
      Retriever.candidates
        (Retriever.retrieve embed store_search user_query ui_filters top_k) in
    NoDup (map cand_id found)
    /\ (forall cv_id,
          In cv_id (map cand_id found)
          <-> exists item,
                In item ranked /\ Retriever.cv_id_of (fst item) = cv_id)
    /\ (length found <= length ranked)%nat
    /\ (found = [] <-> ranked = []).
Proof.
  intros embedding embed store_search user_query ui_filters top_k ranked found.
  destruct (RetrieveFacts.retrieve_scored embedding embed store_search
              user_query ui_filters top_k) as [Hids _].
  fold ranked found in Hids.
  split; [rewrite Hids; apply GroupFacts.first_appearance_NoDup|].
  split; [intros cv_id; rewrite Hids; apply RetrieveMore.cvs_of_In|].
  split.
  - rewrite <- (length_map cand_id), Hids. unfold Aggregation.cvs_of.
    rewrite <- (length_map (fun item => Retriever.cv_id_of (fst item)) ranked).
    apply SearchFacts.first_appearance_length.
  - split.
    + intros Hnil. rewrite Hnil in Hids. simpl in Hids.
      destruct ranked as [|item l]; [reflexivity|discriminate].
    + intros Hnil. rewrite Hnil in Hids. simpl in Hids.
      now destruct found.
Qed.

(** X13: when the index never reports a negative distance, the retrieval
    score of every candidate of [retrieve] lies in [0,1]. *)
Theorem X13_retrieval_scores_in_unit_interval :
  forall (embedding : Type) (embed : string -> embedding)
         (store_search : embedding -> Z ->
                         option QueryParser.where_clause ->
                         list HybridSearch.hit)
         (user_query : string) (ui_filters : QueryParser.ui_filters)
         (top_k : Z),
    (forall qv k w,
        Forall (fun h => (0 <= HybridSearch.hit_distance h)%R)
          (store_search qv k w)) ->
    Forall
      (fun c => exists a, retrieval_score c = Some a /\ (0 <= a <= 1)%R)
      (Retriever.candidates
         (Retriever.retrieve embed store_search user_query ui_filters top_k)).
Proof.
  intros embedding embed store_search user_query ui_filters top_k Hd.
  destruct (RetrieveFacts.retrieve_scored embedding embed store_search
              user_query ui_filters top_k) as [_ Hscored].
  eapply Forall_impl; [|exact Hscored].
  cbv beta. intros c [Hne [Hscore _]].
  eexists. split; [exact Hscore|].
  apply ScoreFacts.final_score_unit_interval; [exact Hne|].
  unfold Retrieval.ranking_of.
  destruct (RetrieveMore.fallback_is_a_search embedding embed store_search
              (PyStr.strip user_query) (QueryParser._build_filters ui_filters)
              ui_filters top_k) as [w [k Hsearch]].
  rewrite Hsearch.
  pose proof (SearchFacts.search_ranked_unit embedding store_search
                (PyStr.strip user_query) (embed (PyStr.strip user_query)) w k
                (Hd _ _ _)) as Hunit.
  apply Forall_forall. intros s Hs.
  apply RetrieveMore.segment_scores_incl in Hs.
  apply in_map_iff in Hs. destruct Hs as [item [<- Hin]].
  rewrite Forall_forall in Hunit. now apply Hunit.
Qed.

(** X13 at a concrete input: the small index. *)
Lemma X13_witness :
  (forall qv k w,
      Forall (fun h => (0 <= HybridSearch.hit_distance h)%R)
        (Examples.small_index qv k w))
  /\ Forall
       (fun c => exists a, retrieval_score c = Some a /\ (0 <= a <= 1)%R)
       (Retriever.candidates
          (Retriever.retrieve Examples.unit_embed Examples.small_index "zzz"
             QueryParser.no_filters 10)).
Proof.
  assert (Hd : forall qv k w,
             Forall (fun h => (0 <= HybridSearch.hit_distance h)%R)
               (Examples.small_index qv k w)).
  { intros qv k w. unfold Examples.small_index, Examples.three_hits.
    repeat constructor; simpl; lra. }
  split; [exact Hd|].
  exact (X13_retrieval_scores_in_unit_interval unit Examples.unit_embed
           Examples.small_index "zzz" QueryParser.no_filters 10%Z Hd).
Defined.

(** X14: the text of a candidate is made of the texts of the chunks of its
    CV in the order of the fused ranking, best first, joined by a blank and
    cut after the third. *)
Theorem X14_candidate_text :
  forall (embedding : Type) (embed : string -> embedding)
         (store_search : embedding -> Z ->
                         option QueryParser.where_clause ->
                         list HybridSearch.hit)
         (user_query : string) (ui_filters : QueryParser.ui_filters)
         (top_k : Z),
    let searched :=
      fst (Retriever.search_with_fallback embed store_search
             (PyStr.strip user_query)
             (QueryParser._build_filters ui_filters) ui_filters top_k) in
    descending snd (fst searched)
    /\ Forall
         (fun c =>
            cand_text c
            = PyStr.join " "
                (firstn 3
                   (Further.segment_texts (cand_id c) (fst searched)
                      (snd searched))))
         (Retriever.candidates
            (Retriever.retrieve embed store_search user_query ui_filters
               top_k)).
Proof.
  intros embedding embed store_search user_query ui_filters top_k searched.
  split.
  - subst searched.
    destruct (RetrieveMore.fallback_is_a_search embedding embed store_search
                (PyStr.strip user_query)
                (QueryParser._build_filters ui_filters) ui_filters top_k)
      as [w [k ->]].
    rewrite ClassificationFacts.search_ranked. apply sorted_desc_descending.
  - rewrite RetrieveFacts.retrieve_candidates. cbv zeta.
    cbn [Retriever.candidates]. apply RetrieveMore.candidates_of_texts.
Qed.

(* ------------------------------------------------------------------ *)
(** ** The chunker and the pipeline, further *)

Module ChunkMore.

Import PyStr CVChunker IngestionPipeline Further.

Lemma map_enumerate {X Y} (g : nat -> Y) (l : list X) :
  map (fun p : nat * X => g (fst p)) (enumerate l) = map g (seq 0 (length l)).
Proof.
  unfold enumerate. generalize 0%nat.
  induction l as [|x l IH]; intros n; simpl; [reflexivity|].
  now rewrite IH.
Qed.

Lemma profile_present cv_json :
  let profile_text :=
    (if truthy (title cv_json)
     then "Job Title: " ++ fmt (title cv_json) ++ ". " else "")
    ++ (if truthy (summary cv_json)
        then "Summary: " ++ fmt (summary cv_json) else "") in
  strip profile_text = ""
  <-> truthy (title cv_json) || truthy (summary cv_json) = false.
Proof.
  cbv zeta.
  destruct (truthy (title cv_json)); simpl.
  - split; [|discriminate]. intros H. exfalso. revert H.
    now apply StringFacts.strip_nonempty.
  - destruct (truthy (summary cv_json)); simpl.
    + split; [|discriminate]. intros H. exfalso. revert H.
      now apply StringFacts.strip_nonempty.
    + split; reflexivity.
Qed.

(** The identifiers of the segments: the document id, an underscore and the
    chunk type. *)
Lemma chunk_ids cv_id cv_json :
  map id (chunk cv_id cv_json)
  = map (fun kind => cv_id ++ "_" ++ kind) (segment_kinds cv_json).
Proof.
  unfold chunk, segment_kinds. cbv zeta.
  rewrite !map_app. repeat f_equal.
  - pose proof (profile_present cv_json) as Hp. cbv zeta in Hp.
    destruct (strip _) eqn:Es.
    + now rewrite (proj1 Hp eq_refl).
    + destruct (truthy (title cv_json) || truthy (summary cv_json));
        [reflexivity|].
      now destruct Hp as [_ Hp]; specialize (Hp eq_refl).
  - now destruct (skills cv_json).
  - rewrite !map_map.
    rewrite <- (map_enumerate
                  (fun i => cv_id ++ "_" ++ "experience_" ++ of_nat i)).
    apply map_ext. now intros [i x].
  - rewrite !map_map.
    rewrite <- (map_enumerate
                  (fun i => cv_id ++ "_" ++ "education_" ++ of_nat i)).
    apply map_ext. now intros [i x].
  - now destruct (languages cv_json).
  - now destruct (certifications cv_json).
  - rewrite !map_map.
    rewrite <- (map_enumerate
                  (fun i => cv_id ++ "_" ++ "project_" ++ of_nat i)).
    apply map_ext. now intros [i x].
Qed.

Lemma numbered_NoDup prefix n :
  NoDup (map (fun i => prefix ++ of_nat i) (seq 0 n)).
Proof.
  apply NoDup_map_NoDup_ForallPairs; [|apply seq_NoDup].
  intros i j _ _ H. apply StringFacts.append_cancel_l in H.
  now apply StringFacts.of_nat_injective.
Qed.

Lemma numbered_In prefix n k :
  In k (map (fun i => prefix ++ of_nat i) (seq 0 n)) ->
  exists i, k = prefix ++ of_nat i.
Proof.
  intros H. apply in_map_iff in H. destruct H as [i [<- _]]. now exists i.
Qed.

Ltac kinds_differ :=
  repeat match goal with
    | H : In _ (_ ++ _) |- _ => apply in_app_or in H; destruct H as [H|H]
    | H : In _ (map (fun i => _ ++ of_nat i) _) |- _ =>
        apply numbered_In in H; destruct H as [? H]
    | H : In _ (if ?b then _ else _) |- _ => destruct b
    | H : In _ (match ?l with [] => _ | _ => _ end) |- _ => destruct l
    | H : In _ [] |- _ => destruct H
    | H : In _ [_] |- _ => destruct H as [H|[]]
    end;
  subst; simpl in *; try discriminate.

Lemma segment_kinds_NoDup cv_json : NoDup (segment_kinds cv_json).
Proof.
  unfold segment_kinds.
  repeat (apply NoDup_app;
          [| |intros k Hk Hk'; kinds_differ]);
    try apply numbered_NoDup;
    try (destruct (_ || _); repeat constructor; now simpl);
    try (match goal with
         | |- NoDup (match ?l with [] => _ | _ => _ end) =>
             destruct l; repeat constructor; now simpl
         end).
Qed.

Lemma chunk_ids_NoDup cv_id cv_json : NoDup (map id (chunk cv_id cv_json)).
Proof.
  rewrite chunk_ids.
  apply NoDup_map_NoDup_ForallPairs; [|apply segment_kinds_NoDup].
  intros k k' _ _ H. apply StringFacts.append_cancel_l in H.
  now injection H.
Qed.

Lemma chunk_cv_id cv_id cv_json :
  no_underscore cv_id ->
  Forall (fun i => Retriever.cv_id_of i = cv_id) (map id (chunk cv_id cv_json)).
Proof.
  intros Hno. rewrite chunk_ids. apply Forall_map, Forall_forall.
  intros kind _. unfold Retriever.cv_id_of.
  now apply (StringFacts.before_first_append "_"%char cv_id kind).
Qed.

End ChunkMore.

(** X15: the number of segments of a record is one for the profile when
    the record has a title or a summary, one each for non-empty skills,
    languages and certifications, and one per experience, education and
    project entry; a record without any of these yields the empty list. *)
Theorem X15_segment_count :
  forall (cv_id : string) (cv_json : CVChunker.cv),
    length (CVChunker.chunk cv_id cv_json) = Further.segment_count cv_json
    /\ (CVChunker.chunk cv_id cv_json = []
        <-> CVChunker.truthy (CVChunker.title cv_json) = false
            /\ CVChunker.truthy (CVChunker.summary cv_json) = false
            /\ CVChunker.skills cv_json = []
            /\ CVChunker.experience_list cv_json = []
            /\ CVChunker.education_list cv_json = []
            /\ CVChunker.languages cv_json = []
            /\ CVChunker.certifications cv_json = []
            /\ CVChunker.projects_or_work cv_json = []).
Proof.
  intros cv_id cv_json.
  assert (Hlen : length (CVChunker.chunk cv_id cv_json)
                 = Further.segment_count cv_json).
  { rewrite <- (length_map CVChunker.id), ChunkMore.chunk_ids, length_map.
    unfold Further.segment_kinds, Further.segment_count. cbv zeta.
    rewrite !length_app, !length_map, !length_seq.
    destruct (CVChunker.truthy (CVChunker.title cv_json)
              || CVChunker.truthy (CVChunker.summary cv_json)),
      (CVChunker.skills cv_json), (CVChunker.languages cv_json),
      (CVChunker.certifications cv_json); simpl; lia. }
  split; [exact Hlen|].
  split.
  - intros Hnil. rewrite Hnil in Hlen. simpl in Hlen.
    unfold Further.segment_count in Hlen.
    destruct (CVChunker.truthy (CVChunker.title cv_json)),
      (CVChunker.truthy (CVChunker.summary cv_json)),
      (CVChunker.skills cv_json), (CVChunker.experience_list cv_json),
      (CVChunker.education_list cv_json), (CVChunker.languages cv_json),
      (CVChunker.certifications cv_json),
      (CVChunker.projects_or_work cv_json);
      simpl in Hlen; try discriminate; repeat split; lia.
  - intros [Ht [Hs [Hsk [Hex [Hed [Hla [Hce Hpr]]]]]]].
    apply length_zero_iff_nil. rewrite Hlen.
    unfold Further.segment_count.
    now rewrite Ht, Hs, Hsk, Hex, Hed, Hla, Hce, Hpr.
Qed.

(** X16: the segment ids of a record are the document id, an underscore and
    the chunk types [profile], [skills], [experience_0], ..., in this order,
    and no two segments of a record share an id. *)
Theorem X16_segment_ids_unique :
  forall (cv_id : string) (cv_json : CVChunker.cv),
    map CVChunker.id (CVChunker.chunk cv_id cv_json)
    = map (fun kind => cv_id ++ "_" ++ kind) (Further.segment_kinds cv_json)
    /\ NoDup (Further.segment_kinds cv_json)
    /\ NoDup (map CVChunker.id (CVChunker.chunk cv_id cv_json)).
Proof.
  intros cv_id cv_json.
  split; [apply ChunkMore.chunk_ids|].
  split; [apply ChunkMore.segment_kinds_NoDup|apply ChunkMore.chunk_ids_NoDup].
Qed.

(** X17: the retriever recovers the document id from every segment id that
    the chunker makes, provided the drawn document id holds no underscore:
    what stands before the first underscore of the segment id is the
    document id, so all segments of a CV are grouped under it. *)
Theorem X17_document_id_round_trip :
  forall (cv_id : string) (cv_json : CVChunker.cv),
    Further.no_underscore cv_id ->
    Forall (fun c => Retriever.cv_id_of (CVChunker.id c) = cv_id)
      (CVChunker.chunk cv_id cv_json).
Proof.
  intros cv_id cv_json Hno.
  pose proof (ChunkMore.chunk_cv_id cv_id cv_json Hno) as H.
  now rewrite Forall_map in H.
Qed.

(** X17 at a concrete input. *)
Lemma X17_witness :
  Further.no_underscore "0b5c-4e1a"
  /\ Forall (fun c => Retriever.cv_id_of (CVChunker.id c) = "0b5c-4e1a")
       (CVChunker.chunk "0b5c-4e1a" Examples.titled_cv).
Proof.
  assert (Hno : Further.no_underscore "0b5c-4e1a").
  { unfold Further.no_underscore. simpl.
    intros H. repeat (destruct H as [H|H]; [discriminate|]). exact H. }
  split; [exact Hno|].
  exact (X17_document_id_round_trip "0b5c-4e1a" Examples.titled_cv Hno).
Defined.

Module CleanMore.

Import CVChunker IngestionPipeline.

Lemma clean_metadata_idempotent meta :
  clean_metadata (clean_metadata meta) = clean_metadata meta.
Proof.
  unfold clean_metadata. rewrite map_map. apply map_ext.
  intros [k v]. now destruct v.
Qed.

Lemma clean_metadata_keys meta :
  Dict.keys (clean_metadata meta) = Dict.keys meta.
Proof.
  unfold clean_metadata, Dict.keys. rewrite map_map. apply map_ext.
  now intros [k v].
Qed.

Lemma clean_metadata_fixed meta :
  Forall (fun kv => snd kv <> SNone) meta -> clean_metadata meta = meta.
Proof.
  induction 1 as [|[k v] meta Hv _ IH]; simpl; [reflexivity|].
  rewrite IH. simpl in Hv. now destruct v.
Qed.

End CleanMore.

(** X18: [clean_metadata] keeps the keys and their order, changes nothing
    but null values, leaves a dictionary without null values as it is, and
    is idempotent. *)
Theorem X18_clean_metadata :
  forall (meta : Dict.t CVChunker.scalar),
    Dict.keys (IngestionPipeline.clean_metadata meta) = Dict.keys meta
    /\ Forall2
         (fun kv kv' =>
            fst kv' = fst kv
            /\ (snd kv <> CVChunker.SNone -> snd kv' = snd kv)
            /\ (snd kv = CVChunker.SNone -> snd kv' = CVChunker.SStr ""))
         meta (IngestionPipeline.clean_metadata meta)
    /\ IngestionPipeline.clean_metadata (IngestionPipeline.clean_metadata meta)
       = IngestionPipeline.clean_metadata meta
    /\ (Forall (fun kv => snd kv <> CVChunker.SNone) meta ->
        IngestionPipeline.clean_metadata meta = meta).
Proof.
  intros meta.
  split; [apply CleanMore.clean_metadata_keys|].
  split.
  - induction meta as [|[k v] meta IH]; simpl; constructor; [|exact IH].
    simpl. repeat split.
    + intros Hv. destruct v; [contradiction|reflexivity|reflexivity].
    + now intros ->.
  - split; [apply CleanMore.clean_metadata_idempotent|].
    apply CleanMore.clean_metadata_fixed.
Qed.


Module BatchFacts.

Import CVChunker IngestionPipeline IngestionBatch Further.

Section WithEmbedder.

Variable embedding : Type.
Variable embed : string -> embedding.

Lemma ingest_one_ids cv_id cv_json :
  map (@entry_id embedding) (ingest_one embed cv_id cv_json)
  = map id (chunk cv_id cv_json).
Proof. unfold ingest_one. now rewrite map_map. Qed.

Lemma ingest_many_cv_ids cvs :
  Forall no_underscore (map fst cvs) ->
  Forall (fun i => In (Retriever.cv_id_of i) (map fst cvs))
    (map (@entry_id embedding) (ingest_many embed cvs)).
Proof.
  induction cvs as [|[cv_id cv_json] cvs IH]; simpl; intros Hno;
    [constructor|].
  inversion Hno as [|? ? Hcv Hrest]; subst.
  rewrite map_app. apply Forall_app. split.
  - rewrite ingest_one_ids.
    eapply Forall_impl; [|apply (ChunkMore.chunk_cv_id cv_id cv_json Hcv)].
    simpl. intros i ->. now left.
  - eapply Forall_impl; [|apply (IH Hrest)]. simpl. now right.
Qed.

Lemma ingest_many_ids_NoDup cvs :
  NoDup (map fst cvs) -> Forall no_underscore (map fst cvs) ->
  NoDup (map (@entry_id embedding) (ingest_many embed cvs)).
Proof.
  induction cvs as [|[cv_id cv_json] cvs IH]; simpl; intros Hnd Hno;
    [constructor|].
  inversion Hnd as [|? ? Hnotin Hnd']; subst.
  inversion Hno as [|? ? Hcv Hrest]; subst.
  rewrite map_app. apply NoDup_app.
  - rewrite ingest_one_ids. apply ChunkMore.chunk_ids_NoDup.
  - now apply IH.
  - intros i Hi Hi'. apply Hnotin.
    rewrite ingest_one_ids in Hi.
    pose proof (ChunkMore.chunk_cv_id cv_id cv_json Hcv) as Hown.
    pose proof (ingest_many_cv_ids cvs Hrest) as Hothers.
    rewrite Forall_forall in Hown, Hothers.
    rewrite <- (Hown _ Hi). now apply Hothers.
Qed.

End WithEmbedder.

End BatchFacts.

(** X20: in a batch of CVs whose drawn document ids are distinct and hold
    no underscore, no two entries added to the store share an id. *)
Theorem X20_batch_ids_unique :
  forall (embedding : Type) (embed : string -> embedding)
         (cvs : list (string * CVChunker.cv)),
    NoDup (map fst cvs) ->
    Forall Further.no_underscore (map fst cvs) ->
    NoDup (map (@IngestionPipeline.entry_id embedding)
             (IngestionBatch.ingest_many embed cvs)).
Proof.
  intros embedding embed cvs Hnd Hno.
  now apply BatchFacts.ingest_many_ids_NoDup.
Qed.

(** X20 at a concrete input: the same record ingested twice. *)
Lemma X20_witness :
  NoDup (map fst [("0b5c", Examples.titled_cv); ("7e21", Examples.titled_cv)])
  /\ Forall Further.no_underscore
       (map fst [("0b5c", Examples.titled_cv); ("7e21", Examples.titled_cv)])
  /\ NoDup
       (map (@IngestionPipeline.entry_id unit)
          (IngestionBatch.ingest_many Examples.unit_embed
             [("0b5c", Examples.titled_cv); ("7e21", Examples.titled_cv)])).
Proof.
  assert (Hnd : NoDup (map fst [("0b5c", Examples.titled_cv);
                                ("7e21", Examples.titled_cv)])).
  { simpl. repeat constructor; simpl; intuition discriminate. }
  assert (Hno : Forall Further.no_underscore
                  (map fst [("0b5c", Examples.titled_cv);
                            ("7e21", Examples.titled_cv)])).
  { simpl. repeat constructor; unfold Further.no_underscore; simpl;
      intros H; repeat (destruct H as [H|H]; [discriminate|]); exact H. }
  split; [exact Hnd|]. split; [exact Hno|].
  exact (X20_batch_ids_unique unit Examples.unit_embed _ Hnd Hno).
Defined.

(* ------------------------------------------------------------------ *)
(** ** The ranker, further *)

Module RankMore.

Import CrossEncoder Further.
Local Open Scope R_scope.

Lemma with_score_identity s c : identity (with_score s c) = identity c.
Proof. reflexivity. Qed.

Lemma fill_score_identity c : identity (fill_score c) = identity c.
Proof. unfold fill_score. now destruct (score c). Qed.

Lemma set_score_at_identity idx s : forall candidates candidates',
  set_score_at idx s candidates = Some candidates' ->
  map identity candidates' = map identity candidates.
Proof.
  induction idx as [|idx IH]; intros [|c l] candidates' H; simpl in H;
    try discriminate.
  - injection H as <-. reflexivity.
  - destruct (set_score_at idx s l) as [l'|] eqn:E; simpl in H;
      [|discriminate].
    injection H as <-. simpl. now rewrite (IH l l' E).
Qed.

Lemma attach_scores_identity results : forall candidates,
  map identity (fst (attach_scores results candidates))
  = map identity candidates.
Proof.
  induction results as [|[idx s] results IH]; intros candidates; simpl;
    [reflexivity|].
  destruct (set_score_at idx s candidates) as [candidates'|] eqn:E;
    [|reflexivity].
  rewrite IH. now apply set_score_at_identity in E.
Qed.

Lemma fallback_identity candidates :
  Permutation (map identity candidates) (map identity (fallback candidates)).
Proof.
  unfold fallback.
  assert (H : map identity (map fill_score candidates)
              = map identity candidates).
  { rewrite map_map. apply map_ext. intros c. apply fill_score_identity. }
  rewrite <- H. apply Permutation_map, sorted_desc_perm.
Qed.

Section WithService.

Variable available : bool.
Variable rerank : string -> list string -> nat -> option (list (nat * R)).

Lemma rank_identity query candidates :
  Permutation (map identity candidates)
    (map identity (rank available rerank query candidates)).
Proof.
  unfold rank. destruct candidates as [|c l]; [reflexivity|].
  destruct (negb available); [apply fallback_identity|].
  destruct (rerank _ _ _) as [results|]; [|apply fallback_identity].
  destruct (attach_scores results (c :: l)) as [scored completed] eqn:E.
  pose proof (attach_scores_identity results (c :: l)) as Hid.
  rewrite E in Hid. simpl fst in Hid. rewrite <- Hid.
  destruct completed; [|apply fallback_identity].
  apply Permutation_map, sorted_desc_perm.
Qed.

Lemma rank_descending query candidates :
  descending score_key (rank available rerank query candidates).
Proof.
  unfold rank, fallback. destruct candidates as [|c l]; [constructor|].
  destruct (negb available); [apply sorted_desc_descending|].
  destruct (rerank _ _ _) as [results|]; [|apply sorted_desc_descending].
  destruct (attach_scores results (c :: l)) as [scored [|]];
    apply sorted_desc_descending.
Qed.

End WithService.

(** The relevance left at an index by a response that starts with a score
    for that index, or for another one. *)
Lemma relevance_of_fold results i : forall acc,
  fold_left (fun acc '(idx, s) => if Nat.eqb idx i then Some s else acc)
    results acc
  = match relevance_of results i with
    | Some s => Some s
    | None => acc
    end.
Proof.
  unfold relevance_of.
  induction results as [|[idx s] results IH]; intros acc; simpl;
    [reflexivity|].
  rewrite IH. rewrite (IH (if Nat.eqb idx i then Some s else None)).
  destruct (fold_left _ results None); [reflexivity|].
  now destruct (Nat.eqb idx i).
Qed.

Lemma relevance_of_cons idx s results i :
  relevance_of ((idx, s) :: results) i
  = match relevance_of results i with
    | Some s' => Some s'
    | None => if Nat.eqb idx i then Some s else None
    end.
Proof. unfold relevance_of at 1. simpl. apply relevance_of_fold. Qed.

Lemma apply_from_other idx s results : forall candidates start,
  (idx < start)%nat ->
  apply_from ((idx, s) :: results) start candidates
  = apply_from results start candidates.
Proof.
  induction candidates as [|c l IH]; intros start Hlt; simpl; [reflexivity|].
  rewrite relevance_of_cons, (IH (S start)) by lia.
  replace (Nat.eqb idx start) with false
    by (symmetry; apply Nat.eqb_neq; lia).
  now destruct (relevance_of results start).
Qed.

Lemma set_score_at_apply s results : forall candidates idx start,
  (idx < length candidates)%nat ->
  exists candidates',
    set_score_at idx s candidates = Some candidates'
    /\ length candidates' = length candidates
    /\ apply_from results start candidates'
       = apply_from ((start + idx, s)%nat :: results) start candidates.
Proof.
  induction candidates as [|c l IH]; intros idx start Hlt; simpl in Hlt;
    [lia|].
  destruct idx as [|idx].
  - exists (with_score s c :: l). split; [reflexivity|]. split; [reflexivity|].
    simpl. rewrite Nat.add_0_r, relevance_of_cons, Nat.eqb_refl.
    rewrite apply_from_other by lia.
    now destruct (relevance_of results start).
  - destruct (IH idx (S start)) as [l' [Hset [Hlen Happly]]]; [lia|].
    exists (c :: l'). simpl. rewrite Hset. split; [reflexivity|].
    split; [now rewrite Hlen|].
    rewrite relevance_of_cons.
    replace (Nat.eqb (start + S idx) start) with false
      by (symmetry; apply Nat.eqb_neq; lia).
    rewrite Happly. replace (S start + idx)%nat with (start + S idx)%nat by lia.
    now destruct (relevance_of results start).
Qed.

Lemma attach_scores_in_range results : forall candidates,
  Forall (fun r => (fst r < length candidates)%nat) results ->
  attach_scores results candidates
  = (apply_relevance results candidates, true).
Proof.
  induction results as [|[idx s] results IH]; intros candidates Hall.
  - simpl. unfold apply_relevance. f_equal.
    generalize 0%nat. induction candidates as [|c l IHl]; intros n; simpl;
      [reflexivity|].
    now rewrite <- IHl.
  - inversion Hall as [|? ? Hidx Hrest]; subst. simpl in Hidx.
    destruct (set_score_at_apply s results candidates idx 0 Hidx)
      as [candidates' [Hset [Hlen Happly]]].
    simpl. rewrite Hset. rewrite IH.
    + unfold apply_relevance. now rewrite Happly.
    + rewrite Hlen. exact Hrest.
Qed.

End RankMore.

(** X21: on every path, [rank] returns the candidates it was given, each
    once, with their ids, texts and retrieval scores untouched, in
    descending order of their score; it never drops or repeats one. *)
Theorem X21_rank_keeps_candidates :
  forall (available : bool)
         (rerank : string -> list string -> nat -> option (list (nat * R)))
         (query : string) (candidates : list candidate),
    let out := CrossEncoder.rank available rerank query candidates in
    Permutation (map Further.identity candidates) (map Further.identity out)
    /\ length out = length candidates
    /\ descending CrossEncoder.score_key out.
Proof.
  intros available rerank query candidates out.
  pose proof (RankMore.rank_identity available rerank query candidates) as Hp.
  split; [exact Hp|].
  split; [|apply RankMore.rank_descending].
  apply Permutation_length in Hp. now rewrite !length_map in Hp.
Qed.

(** X22: when the service answers and every index of the response lies
    within the list, each candidate gets the relevance score given for its
    position, the last one if the response names the position twice, keeps
    what it had if the response does not name it, and the list is sorted by
    these scores. *)
Theorem X22_rank_maps_scores_by_index :
  forall (rerank : string -> list string -> nat -> option (list (nat * R)))
         (query : string) (candidates : list candidate)
         (results : list (nat * R)),
    rerank query (map cand_text candidates) (length candidates)
    = Some results ->
    Forall (fun r => (fst r < length candidates)%nat) results ->
    CrossEncoder.rank true rerank query candidates
    = sorted_desc CrossEncoder.score_key
        (Further.apply_relevance results candidates).
Proof.
  intros rerank query candidates results Hcall Hrange.
  unfold CrossEncoder.rank. rewrite Hcall.
  rewrite (RankMore.attach_scores_in_range results candidates Hrange).
  destruct candidates as [|c l]; [|reflexivity].
  reflexivity.
Qed.

(** X22 at a concrete input: two candidates and a response that prefers
    the second. *)
Lemma X22_witness :
  Examples.swapping_rerank "q"
    (map cand_text [Examples.fresh_a; Examples.fresh_b]) 2
  = Some [(1%nat, 0.9%R); (0%nat, 0.4%R)]
  /\ Forall (fun r => (fst r < 2)%nat) [(1%nat, 0.9%R); (0%nat, 0.4%R)]
  /\ CrossEncoder.rank true Examples.swapping_rerank "q"
       [Examples.fresh_a; Examples.fresh_b]
     = sorted_desc CrossEncoder.score_key
         (Further.apply_relevance [(1%nat, 0.9%R); (0%nat, 0.4%R)]
            [Examples.fresh_a; Examples.fresh_b]).
Proof.
  split; [reflexivity|].
  split; [repeat constructor|].
  apply (X22_rank_maps_scores_by_index Examples.swapping_rerank "q"
           [Examples.fresh_a; Examples.fresh_b]
           [(1%nat, 0.9%R); (0%nat, 0.4%R)]).
  - reflexivity.
  - repeat constructor.
Defined.

(* ------------------------------------------------------------------ *)
(** ** The lazily loaded client *)

Module ClientFacts.

Import CohereClient Further.

Section WithConstructor.

Variable client : Type.
Variable new_client : string -> option client.

(** [_get_client] returns a client exactly when it leaves [_available]
    true, and then this client is the one kept in [_client]. *)
Lemma get_client_result api_key g :
  consistent g ->
  let '(c, g') := _get_client new_client api_key g in
  consistent g'
  /\ (c <> None <-> _available g' = Some true)
  /\ (c <> None -> _client g' = c).
Proof.
  intros Hg. unfold _get_client, consistent in *.
  destruct (_available g) as [[|]|] eqn:Ea.
  - rewrite Ea. repeat split; auto; intros; now apply Hg.
  - destruct api_key as [[|a key]|]; simpl;
      try (repeat split; congruence).
    destruct (new_client (String a key)); simpl; repeat split; congruence.
  - destruct api_key as [[|a key]|]; simpl;
      try (repeat split; congruence).
    destruct (new_client (String a key)); simpl; repeat split; congruence.
Qed.

Lemma probes_loaded keys c g :
  probes new_client keys (Some c) g
  = (repeat (Some c) (length keys), Some c, g).
Proof.
  induction keys as [|k keys IH]; simpl; [reflexivity|]. now rewrite IH.
Qed.

Lemma repeat_kept (c : option client) n : client_kept (repeat c n).
Proof.
  unfold client_kept. induction n as [|n IH]; simpl; constructor;
    [exact IH|].
  apply Forall_forall. intros x Hx. apply repeat_spec in Hx. now right.
Qed.

Lemma probes_kept keys : forall g,
  consistent g ->
  let '(seen, self_client, g') := probes new_client keys None g in
  client_kept seen
  /\ consistent g'
  /\ (self_client <> None -> _available g' = Some true
                             /\ _client g' = self_client).
Proof.
  induction keys as [|k keys IH]; intros g Hg; simpl.
  - split; [constructor|]. split; [exact Hg|]. congruence.
  - pose proof (get_client_result k g Hg) as Hres.
    destruct (_get_client new_client k g) as [[c|] g'] eqn:E.
    + destruct Hres as [Hg' [Havail Hclient]].
      rewrite probes_loaded. split.
      * apply (repeat_kept (Some c) (S (length keys))).
      * split; [exact Hg'|]. intros _. split.
        -- now apply Havail.
        -- now apply Hclient.
    + destruct Hres as [Hg' _]. specialize (IH g' Hg').
      destruct (probes new_client keys None g') as [[seen self'] g''].
      destruct IH as [Hkept Hrest]. split; [|exact Hrest].
      constructor; [exact Hkept|].
      apply Forall_forall. intros x _. now left.
Qed.

End WithConstructor.

End ClientFacts.

(** X23: on an instance of the ranker, starting with the module as it is
    loaded, a client once obtained is returned at every later request,
    whatever happens to the key afterwards.  [_available]
    is true only when [_client] holds a client, and an instance that holds
    a client holds the one of the module. *)
Theorem X23_client_once_loaded_is_kept :
  forall (client : Type) (new_client : string -> option client)
         (keys : list (option string)),
    let '(seen, self_client, g) :=
      CohereClient.probes new_client keys None (CohereClient.initial client) in
    Further.client_kept seen
    /\ CohereClient.consistent g
    /\ (self_client <> None ->
        CohereClient._available g = Some true
        /\ CohereClient._client g = self_client).
Proof.
  intros client new_client keys.
  apply (ClientFacts.probes_kept client new_client keys
           (CohereClient.initial client)).
  unfold CohereClient.consistent. simpl. discriminate.
Qed.

Module ClientMore.

Import CohereClient.

Section WithConstructor.

Variable client : Type.
Variable new_client : string -> option client.

Lemma probes_app keys1 keys2 : forall self_client g,
  probes new_client (keys1 ++ keys2) self_client g
  = let '(seen1, self1, g1) := probes new_client keys1 self_client g in
    let '(seen2, self2, g2) := probes new_client keys2 self1 g1 in
    ((seen1 ++ seen2)%list, self2, g2).
Proof.
  induction keys1 as [|k keys1 IH]; intros self_client g; simpl.
  - now destruct (probes new_client keys2 self_client g) as [[seen2 self2] g2].
  - destruct (client_of new_client k self_client g) as [c g'].
    rewrite IH.
    destruct (probes new_client keys1 c g') as [[seen1 self1] g1].
    now destruct (probes new_client keys2 self1 g1) as [[seen2 self2] g2].
Qed.

(** As long as no client was seen, neither the instance nor the module
    holds one as available. *)
Lemma probes_unloaded keys : forall g,
  _available g <> Some true ->
  let '(seen, self_client, g') := probes new_client keys None g in
  Forall (eq None) seen ->
  self_client = None /\ _available g' <> Some true.
Proof.
  induction keys as [|k keys IH]; intros g Hg; simpl; [auto|].
  unfold _get_client.
  destruct (_available g) as [[|]|] eqn:Ea; [congruence| |].
  - destruct k as [[|a key]|]; [| |].
    + specialize (IH {| _client := _client g; _available := Some false |}).
      simpl in IH. destruct (probes _ keys None _) as [[seen self'] g''].
      intros Hall. inversion Hall; subst. apply IH; [discriminate|assumption].
    + destruct (new_client (String a key)) as [c|].
      * destruct (probes _ keys (Some c) _) as [[seen self'] g''].
        intros Hall. inversion Hall; subst. discriminate.
      * specialize (IH {| _client := _client g; _available := Some false |}).
        simpl in IH. destruct (probes _ keys None _) as [[seen self'] g''].
        intros Hall. inversion Hall; subst.
        apply IH; [discriminate|assumption].
    + specialize (IH {| _client := _client g; _available := Some false |}).
      simpl in IH. destruct (probes _ keys None _) as [[seen self'] g''].
      intros Hall. inversion Hall; subst. apply IH; [discriminate|assumption].
  - destruct k as [[|a key]|]; [| |].
    + specialize (IH {| _client := _client g; _available := Some false |}).
      simpl in IH. destruct (probes _ keys None _) as [[seen self'] g''].
      intros Hall. inversion Hall; subst. apply IH; [discriminate|assumption].
    + destruct (new_client (String a key)) as [c|].
      * destruct (probes _ keys (Some c) _) as [[seen self'] g''].
        intros Hall. inversion Hall; subst. discriminate.
      * specialize (IH {| _client := _client g; _available := Some false |}).
        simpl in IH. destruct (probes _ keys None _) as [[seen self'] g''].
        intros Hall. inversion Hall; subst.
        apply IH; [discriminate|assumption].
    + specialize (IH {| _client := _client g; _available := Some false |}).
      simpl in IH. destruct (probes _ keys None _) as [[seen self'] g''].
      intros Hall. inversion Hall; subst. apply IH; [discriminate|assumption].
Qed.

Lemma probes_length keys : forall self_client g,
  length (fst (fst (probes new_client keys self_client g))) = length keys.
Proof.
  induction keys as [|k keys IH]; intros self_client g; simpl; [reflexivity|].
  destruct (client_of new_client k self_client g) as [c g'].
  specialize (IH c g').
  destruct (probes new_client keys c g') as [[seen self'] g''].
  simpl in *. now rewrite IH.
Qed.

Lemma all_none_repeat (seen : list (option client)) :
  Forall (eq None) seen -> seen = repeat None (length seen).
Proof.
  induction 1 as [|x l <- _ IH]; simpl; [reflexivity|]. now rewrite <- IH.
Qed.

End WithConstructor.

End ClientMore.

(** X24: an unavailable ranker is not given up: after any number of
    requests at which no client could be obtained, a request made when the
    key is set and the client can be built obtains it. *)
Theorem X24_client_probed_again :
  forall (client : Type) (new_client : string -> option client)
         (keys : list (option string)) (key : string) (c : client),
    key <> "" ->
    new_client key = Some c ->
    Forall (eq None)
      (fst (fst (CohereClient.probes new_client keys None
                   (CohereClient.initial client)))) ->
    fst (fst (CohereClient.probes new_client (keys ++ [Some key])%list None
                (CohereClient.initial client)))
    = (repeat None (length keys) ++ [Some c])%list.
Proof.
  intros client new_client keys key c Hkey Hnew Hall.
  rewrite ClientMore.probes_app.
  pose proof (ClientMore.probes_unloaded client new_client keys
                (CohereClient.initial client)) as Hun.
  destruct (CohereClient.probes new_client keys None _)
    as [[seen self1] g1] eqn:E.
  simpl in Hall.
  destruct Hun as [Hself Hg1]; [discriminate|exact Hall|]. subst self1.
  assert (Hseen : seen = repeat None (length keys)).
  { rewrite <- (ClientMore.probes_length client new_client keys None
                  (CohereClient.initial client)), E.
    now apply ClientMore.all_none_repeat. }
  simpl. unfold CohereClient._get_client.
  destruct (CohereClient._available g1) as [[|]|]; [congruence| |];
    destruct key as [|a key]; try congruence; rewrite Hnew; simpl;
    now rewrite Hseen.
Qed.

(** X24 at a concrete input: no key, then an empty key, then a key. *)
Lemma X24_witness :
  "k3y" <> ""
  /\ (fun _ : string => Some tt) "k3y" = Some tt
  /\ fst (fst (CohereClient.probes (fun _ : string => Some tt)
                 ([None; Some ""] ++ [Some "k3y"])%list None
                 (CohereClient.initial unit)))
     = (repeat None 2 ++ [Some tt])%list.
Proof.
  split; [discriminate|]. split; [reflexivity|].
  apply (X24_client_probed_again unit (fun _ => Some tt) [None; Some ""]
           "k3y" tt).
  - discriminate.
  - reflexivity.
  - repeat constructor.
Defined.

(* ------------------------------------------------------------------ *)
(** ** The search entry point *)

Module ServiceFacts.

Import Further.
Local Open Scope R_scope.

Lemma firstn_descending {A} (key : A -> R) n : forall l,
  descending key l -> descending key (firstn n l).
Proof.
  unfold descending. induction n as [|n IH]; intros l Hl; simpl;
    [constructor|].
  destruct l as [|x l]; [constructor|].
  inversion Hl as [|? ? Hs Hall]; subst.
  constructor; [now apply IH|].
  rewrite Forall_forall in *. intros y Hy. apply Hall.
  rewrite <- (firstn_skipn n l). apply in_or_app. now left.
Qed.

Lemma firstn_incl {A} n (l : list A) : incl (firstn n l) l.
Proof.
  intros x Hx. rewrite <- (firstn_skipn n l). apply in_or_app. now left.
Qed.

Lemma firstn_NoDup {A} n (l : list A) : NoDup l -> NoDup (firstn n l).
Proof.
  intros H. rewrite <- (firstn_skipn n l) in H.
  now apply NoDup_app_remove_r in H.
Qed.

Lemma ids_of_identity l :
  map cand_id l = map (fun t => fst (fst t)) (map identity l).
Proof. rewrite map_map. now apply map_ext. Qed.

Lemma permutation_ids l l' :
  Permutation (map identity l) (map identity l') ->
  Permutation (map cand_id l) (map cand_id l').
Proof.
  intros H. rewrite !ids_of_identity. now apply Permutation_map.
Qed.

End ServiceFacts.

(** X1: for a non-negative [top_k], [AIService.search] returns at most
    [top_k] candidates, all of them candidates of the retriever, no CV
    twice, in descending order of the re-ranked score when the ranker is
    used and of the retrieval score when it is not. *)
Theorem X1_search_result :
  forall (embedding : Type) (embed : string -> embedding)
         (store_search : embedding -> Z ->
                         option QueryParser.where_clause ->
                         list HybridSearch.hit)
         (ranker_available : bool)
         (rerank : string -> list string -> nat -> option (list (nat * R)))
         (query : string) (filters : QueryParser.ui_filters) (top_k : Z)
         (use_reranking : bool),
    (0 <= top_k)%Z ->
    let found :=
      Retriever.candidates
        (Retriever.retrieve embed store_search query filters top_k) in
    let out :=
      AIService.search embed store_search ranker_available rerank query
        filters top_k use_reranking in
    (length out <= Z.to_nat top_k)%nat
    /\ (length out <= length found)%nat
    /\ NoDup (map cand_id out)
    /\ incl (map cand_id out) (map cand_id found)
    /\ descending
         (if use_reranking && ranker_available
          then CrossEncoder.score_key else CrossEncoder.retrieval_key)
         out.
Proof.
  intros embedding embed store_search ranker_available rerank query filters
    top_k use_reranking Htop found out.
  assert (Hnd : NoDup (map cand_id found)).
  { destruct (RetrieveFacts.retrieve_scored embedding embed store_search
                query filters top_k) as [Hids _].
    fold found in Hids. rewrite Hids.
    apply GroupFacts.first_appearance_NoDup. }
  subst out. unfold AIService.search. cbv zeta. fold found.
  destruct found as [|c l] eqn:Efound.
  { simpl. split; [lia|]. split; [lia|]. split; [constructor|].
    split; [intros x Hx; exact Hx|].
    destruct (use_reranking && ranker_available); constructor. }
  rewrite <- Efound in *. clear Efound c l.
  set (ordered :=
         if use_reranking && ranker_available
         then CrossEncoder.rank ranker_available rerank
                (Retriever.clean_query
                   (Retriever.retrieve embed store_search query filters top_k))
                found
         else sorted_desc CrossEncoder.retrieval_key found).
  assert (Hperm : Permutation (map cand_id found) (map cand_id ordered)).
  { subst ordered. destruct (use_reranking && ranker_available).
    - apply ServiceFacts.permutation_ids, RankMore.rank_identity.
    - apply Permutation_map, sorted_desc_perm. }
  assert (Hdesc : descending
                    (if use_reranking && ranker_available
                     then CrossEncoder.score_key
                     else CrossEncoder.retrieval_key) ordered).
  { subst ordered. destruct (use_reranking && ranker_available).
    - apply RankMore.rank_descending.
    - apply sorted_desc_descending. }
  unfold AIService.slice_to.
  replace (0 <=? top_k)%Z with true by (symmetry; now apply Z.leb_le).
  split; [apply firstn_le_length|].
  split.
  { rewrite length_firstn. apply Permutation_length in Hperm.
    rewrite !length_map in Hperm. lia. }
  split.
  { rewrite <- firstn_map. apply ServiceFacts.firstn_NoDup.
    eapply Permutation_NoDup; [exact Hperm|exact Hnd]. }
  split.
  { rewrite <- firstn_map. intros x Hx.
    apply ServiceFacts.firstn_incl in Hx.
    eapply Permutation_in; [symmetry; exact Hperm|exact Hx]. }
  now apply ServiceFacts.firstn_descending.
Qed.

(** X1 at a concrete input: the small index, without re-ranking. *)
Lemma X1_witness :
  (0 <= 1)%Z
  /\ (length
        (AIService.search Examples.unit_embed Examples.small_index false
           Examples.failing_rerank "zzz" QueryParser.no_filters 1 false)
      <= Z.to_nat 1)%nat.
Proof.
  assert (Htop : (0 <= 1)%Z) by lia.
  split; [exact Htop|].
  pose proof (X1_search_result unit Examples.unit_embed Examples.small_index
                false Examples.failing_rerank "zzz" QueryParser.no_filters
                1%Z false Htop) as H.
  cbv zeta in H. destruct H as [H _]. exact H.
Defined.

(* ------------------------------------------------------------------ *)
(** ** Synonyms in the lexical score *)

Module SynonymFacts.

Import PyStr HybridSearch.
Local Open Scope R_scope.

Lemma expanded_keyword keywords k w :
  In k keywords ->
  w = k \/ In w (Dict.get_default SYNONYMS (lower k) []) ->
  In w (_expand_with_synonyms keywords).
Proof.
  intros Hk Hw. unfold _expand_with_synonyms.
  apply nodup_In, in_or_app. destruct Hw as [->|Hw]; [now left|].
  right. apply in_flat_map. now exists k.
Qed.

Lemma raw_score_positive query keywords expanded text w :
  In w expanded ->
  count (lower text) w <> 0%nat ->
  0 < raw_score query keywords expanded text.
Proof.
  intros Hw Hcount. unfold raw_score. cbv zeta.
  pose proof (LexicalFacts.title_boost_range query text) as Hboost.
  set (boost := _get_title_boost query text) in *.
  pose proof (LexicalMore.keyword_scores_zero keywords (lower text) expanded)
    as Hzero.
  pose proof (LexicalMore.keyword_scores_nonneg keywords (lower text) expanded)
    as Hnonneg.
  rewrite <- (Rplus_0_l (fold_right _ _ _)) in Hnonneg.
  rewrite <- LexicalFacts.keyword_scores_sum in Hnonneg.
  set (s := fold_left _ expanded 0) in *.
  assert (Hs : 0 < s).
  { destruct (Req_dec s 0) as [Heq|Hne]; [|lra].
    apply Hzero in Heq. rewrite Forall_forall in Heq.
    now specialize (Heq w Hw). }
  pose proof (pos_INR (length keywords)) as Hlen.
  destruct (contains _ _); nra.
Qed.

End SynonymFacts.

(** X5: a document whose lower-cased text holds a keyword of the query, or
    a synonym that the table lists for a keyword of the query, gets a
    positive lexical score. *)
Theorem X5_synonym_match_scores :
  forall (query : string) (documents : Dict.t string)
         (doc_id text k w : string),
    In (doc_id, text) documents ->
    In k (HybridSearch.keywords_of query) ->
    w = k \/ In w (Dict.get_default HybridSearch.SYNONYMS (PyStr.lower k) []) ->
    PyStr.count (PyStr.lower text) w <> 0%nat ->
    exists s,
      In (doc_id, s) (HybridSearch.bm25_score query documents)
      /\ (0 < s <= 1)%R.
Proof.
  intros query documents doc_id text k w Hdoc Hk Hw Hcount.
  pose proof (SearchFacts.bm25_score_unit query documents) as Hunit.
  rewrite LexicalFacts.bm25_score_normalised in *.
  set (raw := HybridSearch.raw_scores query documents) in *.
  pose proof (LexicalFacts.max_score_positive raw) as Hmax.
  set (r := HybridSearch.raw_score query (HybridSearch.keywords_of query)
              (HybridSearch._expand_with_synonyms
                 (HybridSearch.keywords_of query)) text).
  assert (Hr : (0 < r)%R).
  { apply SynonymFacts.raw_score_positive with w; [|exact Hcount].
    now apply SynonymFacts.expanded_keyword with k. }
  assert (Hin : In (doc_id, r) raw).
  { subst raw. unfold HybridSearch.raw_scores. cbv zeta.
    apply in_map_iff. now exists (doc_id, text). }
  exists (r / HybridSearch.max_score_of raw)%R.
  assert (Hitem : In (doc_id, (r / HybridSearch.max_score_of raw)%R)
                    (map (fun '(doc_id, r) =>
                            (doc_id, (r / HybridSearch.max_score_of raw)%R))
                       raw)).
  { apply in_map_iff. now exists (doc_id, r). }
  split; [exact Hitem|].
  rewrite Forall_forall in Hunit. specialize (Hunit _ Hitem). simpl in Hunit.
  split; [|apply Hunit].
  apply Rmult_lt_0_compat; [exact Hr|]. apply Rinv_0_lt_compat. lra.
Qed.

(** X5 at a concrete input: the query is js, the text says JavaScript. *)
Lemma X5_witness :
  In ("cv1_skills", "Skills: JavaScript") [("cv1_skills", "Skills: JavaScript")]
  /\ In "js" (HybridSearch.keywords_of "js")
  /\ In "javascript"
       (Dict.get_default HybridSearch.SYNONYMS (PyStr.lower "js") [])
  /\ PyStr.count (PyStr.lower "Skills: JavaScript") "javascript" <> 0%nat
  /\ exists s,
       In ("cv1_skills", s)
         (HybridSearch.bm25_score "js"
            [("cv1_skills", "Skills: JavaScript")])
       /\ (0 < s <= 1)%R.
Proof.
  assert (Hdoc : In ("cv1_skills", "Skills: JavaScript")
                   [("cv1_skills", "Skills: JavaScript")]) by now left.
  assert (Hk : In "js" (HybridSearch.keywords_of "js"))
    by (vm_compute; now left).
  assert (Hw : In "javascript"
                 (Dict.get_default HybridSearch.SYNONYMS (PyStr.lower "js") []))
    by (vm_compute; now left).
  assert (Hcount : PyStr.count (PyStr.lower "Skills: JavaScript") "javascript"
                   <> 0%nat) by (vm_compute; discriminate).
  split; [exact Hdoc|]. split; [exact Hk|]. split; [exact Hw|].
  split; [exact Hcount|].
  exact (X5_synonym_match_scores "js" [("cv1_skills", "Skills: JavaScript")]
           "cv1_skills" "Skills: JavaScript" "js" "javascript"
           Hdoc Hk (or_intror Hw) Hcount).
Defined.
